(** * A shallow embedding of the resumable TMDb extractor

    Source: [src/tmdb-python-extractor.py], class [TMDbExtractor].

    What is modelled and what is not.  JSON numbers are integers (the
    float fields of a payload are only copied).  A [bool] that reaches
    an arithmetic position counts as the integer Python makes of it.  The
    CSV found at start-up is seen through what line 64 makes of each
    [id] cell.  The console hands over lines already stripped.  Of the
    file system only the checkpoint write can fail, as that is the one
    failure the source handles; a keyboard interrupt is outside the
    model.  Loops that may go on for ever ([while page <= total_pages],
    the prompt) take a bound on their iterations and report when they hit
    it.  Progress messages are left out.

    The development follows the source top-down:
    - [Py]: the JSON values the program handles and the Python operations
      it applies to them (truthiness, [dict.get], slicing, iteration, ...),
      with the exceptions Python raises made explicit;
    - [Transformer]: [extract_movie_data];
    - [World]: the session object, the two files and the environment
      (HTTP server, operator console, clock) with a trace of effects;
    - [Client]: [fetch_with_retry] and its two wrappers;
    - [Checkpoint]: [load_progress], [save_progress], the CSV scan;
    - [Driver]: [pause_on_error_prompt] and [run];
    - the theorems. *)

From Stdlib Require Import ZArith List String Ascii Bool Lia Permutation.
Import ListNotations.
Local Open Scope string_scope.
Local Open Scope list_scope.
Local Open Scope Z_scope.
Local Set Warnings "-register-all".

(* ===================================================================== *)
(** ** Python values and operations *)
(* ===================================================================== *)

Module Py.

(** What [json.load] and [response.json()] produce.  Python's [None] is
    [JNull].  Numbers are the integer-valued ones; a [dict] is an
    association list in insertion order with distinct keys (lookup takes
    the first binding). *)
Inductive json : Type :=
| JNull
| JBool (b : bool)
| JNum (z : Z)
| JStr (s : string)
| JArr (l : list json)
| JObj (kvs : list (string * json)).

(** The exceptions the modelled code can raise. *)
Inductive exc : Type :=
| AttributeError
| TypeError
| ValueError
| EOFError.

Inductive result (A : Type) : Type :=
| Ok (a : A)
| Raise (e : exc).
Arguments Ok {A} a.
Arguments Raise {A} e.

Definition rbind {A B} (r : result A) (k : A -> result B) : result B :=
  match r with
  | Ok a => k a
  | Raise e => Raise e
  end.

Notation "'let*' x ':=' r 'in' k" := (rbind r (fun x => k))
  (at level 10, x name, r at level 100, k at level 200).

(** [bool(v)] *)
Definition truthy (v : json) : bool :=
  match v with
  | JNull => false
  | JBool b => b
  | JNum z => negb (z =? 0)
  | JStr s => negb (s =? "")%string
  | JArr l => match l with [] => false | _ => true end
  | JObj kvs => match kvs with [] => false | _ => true end
  end.

Fixpoint lookup (key : string) (kvs : list (string * json)) : option json :=
  match kvs with
  | [] => None
  | (k, v) :: rest => if (k =? key)%string then Some v else lookup key rest
  end.

(** [d.get(key, default)]: only a [dict] has the method. *)
Definition dict_get (d : json) (key : string) (default : json) : result json :=
  match d with
  | JObj kvs => Ok (match lookup key kvs with Some v => v | None => default end)
  | _ => Raise AttributeError
  end.

(** The integer a value stands for in arithmetic and comparisons
    ([bool] is a subclass of [int]). *)
Definition as_int (v : json) : option Z :=
  match v with
  | JNum z => Some z
  | JBool b => Some (if b then 1 else 0)
  | _ => None
  end.

(** [v == s] for a [str] literal [s] *)
Definition eq_str (v : json) (s : string) : bool :=
  match v with
  | JStr t => (t =? s)%string
  | _ => false
  end.

(** [v == z] for an [int] [z] *)
Definition eq_int (v : json) (z : Z) : bool :=
  match as_int v with
  | Some i => i =? z
  | None => false
  end.

(** [z < v] for an [int] [z] *)
Definition int_lt (z : Z) (v : json) : result bool :=
  match as_int v with
  | Some i => Ok (z <? i)
  | None => Raise TypeError
  end.

(** [v > z] for an [int] [z] *)
Definition gt_int (v : json) (z : Z) : result bool :=
  match as_int v with
  | Some i => Ok (i >? z)
  | None => Raise TypeError
  end.

(** [min(v, z)] for an [int] [z]: Python keeps the first argument unless
    the second is strictly smaller. The result is used as a page count. *)
Definition min_int (v : json) (z : Z) : result Z :=
  match as_int v with
  | Some i => Ok (if z <? i then z else i)
  | None => Raise TypeError
  end.

Fixpoint chars (s : string) : list json :=
  match s with
  | EmptyString => []
  | String c rest => JStr (String c EmptyString) :: chars rest
  end.

(** The elements a [for] loop (or comprehension) visits. *)
Definition iterate (v : json) : result (list json) :=
  match v with
  | JArr l => Ok l
  | JStr s => Ok (chars s)
  | JObj kvs => Ok (map (fun kv => JStr (fst kv)) kvs)
  | _ => Raise TypeError
  end.

Fixpoint str_take (n : nat) (s : string) : string :=
  match n, s with
  | S n', String c rest => String c (str_take n' rest)
  | _, _ => EmptyString
  end.

(** [v[:n]] *)
Definition slice_to (n : nat) (v : json) : result json :=
  match v with
  | JArr l => Ok (JArr (firstn n l))
  | JStr s => Ok (JStr (str_take n s))
  | _ => Raise TypeError
  end.

(** [len(v)] succeeds on sized values only. *)
Definition has_len (v : json) : result unit :=
  match v with
  | JArr _ | JStr _ | JObj _ => Ok tt
  | _ => Raise TypeError
  end.

Definition LF : ascii := ascii_of_nat 10.
Definition CR : ascii := ascii_of_nat 13.

Fixpoint replace_char (old new : ascii) (s : string) : string :=
  match s with
  | EmptyString => EmptyString
  | String c rest =>
      String (if Ascii.eqb c old then new else c) (replace_char old new rest)
  end.

(** [v.replace("\n", " ").replace("\r", " ")]: a [str] method. *)
Definition flatten_lines (v : json) : result string :=
  match v with
  | JStr s => Ok (replace_char CR " " (replace_char LF " " s))
  | _ => Raise AttributeError
  end.

Fixpoint all_str (l : list json) : result (list string) :=
  match l with
  | [] => Ok []
  | JStr s :: rest => let* ss := all_str rest in Ok (s :: ss)
  | _ :: _ => Raise TypeError
  end.

(** [", ".join(l)]: every item must be a [str]. *)
Definition join_comma (l : list json) : result string :=
  let* ss := all_str l in Ok (String.concat ", " ss).

Fixpoint map_result {A B} (f : A -> result B) (l : list A) : result (list B) :=
  match l with
  | [] => Ok []
  | a :: rest =>
      let* b := f a in
      let* bs := map_result f rest in
      Ok (b :: bs)
  end.

(** [s in v] for a [str] literal [s]: key of a [dict], element of a
    [list], substring of a [str]. *)
Definition contains_str (s : string) (v : json) : result bool :=
  match v with
  | JObj kvs => Ok (match lookup s kvs with Some _ => true | None => false end)
  | JArr l => Ok (existsb (fun x => eq_str x s) l)
  | JStr t => Ok (match String.index 0 s t with Some _ => true | None => false end)
  | _ => Raise TypeError
  end.

(** Values a [set] accepts. *)
Definition hashable (v : json) : bool :=
  match v with
  | JArr _ | JObj _ => false
  | _ => true
  end.

(** Equality of two hashable values. *)
Definition scalar_eq (a b : json) : bool :=
  match a, b with
  | JNull, JNull => true
  | JStr s, JStr t => (s =? t)%string
  | _, _ =>
      match as_int a, as_int b with
      | Some i, Some j => i =? j
      | _, _ => false
      end
  end.

(** A Python [set] of hashable values, as the list of its members. *)
Definition pyset := list json.

Definition mem (v : json) (s : pyset) : bool := existsb (scalar_eq v) s.

(** [v in s] *)
Definition set_in (v : json) (s : pyset) : result bool :=
  if hashable v then Ok (mem v s) else Raise TypeError.

(** [s.add(v)] *)
Definition set_add (v : json) (s : pyset) : pyset :=
  if mem v s then s else s ++ [v].

(** [{f(x) for x in l}] *)
Definition set_of_list (l : list json) : pyset :=
  fold_left (fun s v => set_add v s) l [].

End Py.
Import Py.

(* ===================================================================== *)
(** ** The record transformer *)
(* ===================================================================== *)

Module Transformer.

(** The dictionary [extract_movie_data] returns, one field per key.  The
    joined and flattened fields are always [str]; the others carry
    whatever the payload held. *)
Record MovieData : Type := {
  id : json;
  title : json;
  release_date : json;
  year : json;
  runtime : json;
  overview : string;
  genres : string;
  director : json;
  cast : string;
  vote_average : json;
  vote_count : json;
  popularity : json;
  budget : json;
  revenue : json;
  original_language : json;
  production_companies : string;
  tagline : string
}.

(** Lines 181-184: the first crew entry whose job is "Director". *)
Fixpoint director_loop (crew : list json) : result json :=
  match crew with
  | [] => Ok (JStr "")
  | person :: rest =>
      let* job := dict_get person "job" JNull in
      if eq_str job "Director"
      then dict_get person "name" (JStr "")
      else director_loop rest
  end.

(** Lines 179-184 *)
Definition find_director (details : json) : result json :=
  let* credits := dict_get details "credits" JNull in
  if truthy credits then
    let* crew := dict_get credits "crew" JNull in
    if truthy crew then
      let* people := iterate crew in
      director_loop people
    else Ok (JStr "")
  else Ok (JStr "").

Definition names_of (people : list json) : result (list json) :=
  map_result (fun person => dict_get person "name" (JStr "")) people.

(** Lines 187-190 *)
Definition top_cast (details : json) : result string :=
  let* credits := dict_get details "credits" JNull in
  if truthy credits then
    let* members := dict_get credits "cast" JNull in
    if truthy members then
      let* first10 := slice_to 10 members in
      let* people := iterate first10 in
      let* cast_names := names_of people in
      join_comma cast_names
    else Ok ""
  else Ok "".

(** Lines 193-196 and 199-202: the names of a list of entities, joined. *)
Definition joined_names (details : json) (key : string) : result string :=
  let* entities := dict_get details key JNull in
  if truthy entities then
    let* items := iterate entities in
    let* names := names_of items in
    join_comma names
  else Ok "".

(** Line 208 *)
Definition derive_year (details : json) : result json :=
  let* rd := dict_get details "release_date" JNull in
  if truthy rd then
    let* rd' := dict_get details "release_date" (JStr "") in
    slice_to 4 rd'
  else Ok (JStr "").

Definition extract_movie_data (details : json) : result (option MovieData) :=
  if negb (truthy details) then Ok None else
  let* director := find_director details in
  let* cast := top_cast details in
  let* genres := joined_names details "genres" in
  let* production_companies := joined_names details "production_companies" in
  let* f_id := dict_get details "id" (JStr "") in
  let* f_title := dict_get details "title" (JStr "") in
  let* f_release_date := dict_get details "release_date" (JStr "") in
  let* f_year := derive_year details in
  let* f_runtime := dict_get details "runtime" (JStr "") in
  let* f_overview0 := dict_get details "overview" (JStr "") in
  let* f_overview := flatten_lines f_overview0 in
  let* f_vote_average := dict_get details "vote_average" (JStr "") in
  let* f_vote_count := dict_get details "vote_count" (JStr "") in
  let* f_popularity := dict_get details "popularity" (JStr "") in
  let* f_budget := dict_get details "budget" (JStr "") in
  let* f_revenue := dict_get details "revenue" (JStr "") in
  let* f_original_language := dict_get details "original_language" (JStr "") in
  let* f_tagline0 := dict_get details "tagline" (JStr "") in
  let* f_tagline := flatten_lines f_tagline0 in
  Ok (Some {|
    id := f_id;
    title := f_title;
    release_date := f_release_date;
    year := f_year;
    runtime := f_runtime;
    overview := f_overview;
    genres := genres;
    director := director;
    cast := cast;
    vote_average := f_vote_average;
    vote_count := f_vote_count;
    popularity := f_popularity;
    budget := f_budget;
    revenue := f_revenue;
    original_language := f_original_language;
    production_companies := production_companies;
    tagline := f_tagline |}).

End Transformer.

Import Transformer.

(* ===================================================================== *)
(** ** The session, the files and the environment *)
(* ===================================================================== *)

Module World.

(** The three requests the program sends.  [ApiKeyTest] is the start-up
    probe of [/movie/550]; [Discover] carries [primary_release_year] and
    [page]; [Detail] carries the identifier put in the URL.  The API key
    and the constant parameters are the same in every request of a kind
    and are not represented. *)
Inductive Request : Type :=
| ApiKeyTest
| Discover (year page : Z)
| Detail (movie_id : json).

(** What [session.get] does: raise one of the three exception classes the
    program distinguishes, or return a response with a status code and a
    body ([None] when [response.json()] fails to decode it). *)
Inductive Response : Type :=
| Timeout
| RequestException
| OtherException
| Http (status : Z) (body : option json).

(** What [input()] returns after [.strip()], or end of input. *)
Inductive ConsoleInput : Type :=
| Entered (line : string)
| Eof.

Inductive PromptReason : Type :=
| FailedToFetchPage
| ConsecutiveEmptyPages.

(** Effects in program order (the most recent one first in a trace). *)
Inductive Event : Type :=
| EvRequest (req : Request) (resp : Response)
| EvSleep (ms : Z)
| EvPrompt (year page : Z) (why : PromptReason)
| EvInput (i : ConsoleInput)
| EvWriteHeader
| EvWriteRow (movie_id : json) (row : MovieData)
| EvSaveProgress (doc : json)
| EvRemoveProgress.

(** What becomes of an attempt to rewrite [PROGRESS_FILE]: the document
    is written, [open] raises and the file stays as it was, or
    [json.dump] raises after [open] truncated the file. *)
Inductive DiskWrite : Type :=
| Written
| OpenFailed
| DumpFailed.

(** The environment answers from the history so far. *)
Record Env : Type := {
  server : list Event -> Request -> Response;
  console : list Event -> ConsoleInput;
  clock : list Event -> string;
  disk : list Event -> DiskWrite
}.

(** An [id] cell of the CSV found at start-up, by what line 64 makes of
    it: filtered out when empty or missing, an integer when [int()]
    parses it, an exception otherwise. *)
Inductive IdCell : Type :=
| IdBlank
| IdInt (z : Z)
| IdJunk.

(** [OUTPUT_FILE]: the rows found at start-up and the rows appended by
    this run. *)
Record OutputFile : Type := {
  prior_rows : list IdCell;
  appended : list MovieData
}.

(** [PROGRESS_FILE]: a JSON document, text that [json.load] rejects, or
    a file [open] cannot read.  [json.dump] followed by [json.load] is
    taken to give back the document. *)
Inductive FileContent : Type :=
| Document (doc : json)
| Malformed
| Unreadable.

(** The [TMDbExtractor] object together with the two files and the
    trace. *)
Record Session : Type := {
  total_movies : Z;
  failed_requests : Z;
  extracted_ids : pyset;
  progress : json;
  output_file : option OutputFile;
  progress_file : option FileContent;
  trace : list Event
}.

Definition set_total_movies (n : Z) (s : Session) : Session :=
  {| total_movies := n; failed_requests := failed_requests s;
     extracted_ids := extracted_ids s; progress := progress s;
     output_file := output_file s; progress_file := progress_file s;
     trace := trace s |}.

Definition set_failed_requests (n : Z) (s : Session) : Session :=
  {| total_movies := total_movies s; failed_requests := n;
     extracted_ids := extracted_ids s; progress := progress s;
     output_file := output_file s; progress_file := progress_file s;
     trace := trace s |}.

Definition set_extracted_ids (ids : pyset) (s : Session) : Session :=
  {| total_movies := total_movies s; failed_requests := failed_requests s;
     extracted_ids := ids; progress := progress s;
     output_file := output_file s; progress_file := progress_file s;
     trace := trace s |}.

Definition set_output_file (f : option OutputFile) (s : Session) : Session :=
  {| total_movies := total_movies s; failed_requests := failed_requests s;
     extracted_ids := extracted_ids s; progress := progress s;
     output_file := f; progress_file := progress_file s;
     trace := trace s |}.

Definition set_progress_file (f : option FileContent) (s : Session) : Session :=
  {| total_movies := total_movies s; failed_requests := failed_requests s;
     extracted_ids := extracted_ids s; progress := progress s;
     output_file := output_file s; progress_file := f;
     trace := trace s |}.

Definition record (e : Event) (s : Session) : Session :=
  {| total_movies := total_movies s; failed_requests := failed_requests s;
     extracted_ids := extracted_ids s; progress := progress s;
     output_file := output_file s; progress_file := progress_file s;
     trace := e :: trace s |}.

(** How a piece of the program ends: normally with a value, with an
    exception nobody caught, or not within the allotted loop iterations. *)
Inductive Outcome (A : Type) : Type :=
| Done (a : A)
| Uncaught (e : exc)
| OutOfFuel.
Arguments Done {A} a.
Arguments Uncaught {A} e.
Arguments OutOfFuel {A}.

Definition M (A : Type) : Type := Session -> Outcome A * Session.

Definition ret {A} (a : A) : M A := fun s => (Done a, s).

Definition bind {A B} (m : M A) (k : A -> M B) : M B :=
  fun s =>
    match m s with
    | (Done a, s') => k a s'
    | (Uncaught e, s') => (Uncaught e, s')
    | (OutOfFuel, s') => (OutOfFuel, s')
    end.

Definition raise {A} (e : exc) : M A := fun s => (Uncaught e, s).

Definition out_of_fuel {A} : M A := fun s => (OutOfFuel, s).

(** A pure Python operation inside the program: its exception propagates. *)
Definition lift {A} (r : result A) : M A :=
  match r with
  | Ok a => ret a
  | Raise e => raise e
  end.

Definition modify (f : Session -> Session) : M unit := fun s => (Done tt, f s).

Definition gets {A} (f : Session -> A) : M A := fun s => (Done (f s), s).

End World.
Import World.

Declare Scope prog_scope.
Delimit Scope prog_scope with prog.
Notation "x <- m ;; k" := (bind m (fun x => k))
  (at level 61, m at next level, right associativity) : prog_scope.
Notation "m ;; k" := (bind m (fun _ => k))
  (at level 61, right associativity) : prog_scope.
Local Open Scope prog_scope.

(* ===================================================================== *)
(** ** The fetch client *)
(* ===================================================================== *)

Definition MAX_RETRIES : Z := 3.

Module Client.
Section WithEnv.
Variable env : Env.

(** [self.session.get(url, params=params, timeout=15)] *)
Definition http_get (req : Request) : M Response :=
  fun s =>
    let resp := server env (trace s) req in
    (Done resp, record (EvRequest req resp) s).

(** [time.sleep], in milliseconds *)
Definition sleep (ms : Z) : M unit := modify (record (EvSleep ms)).

(** The tail shared by every retryable failure:
    [if attempt < MAX_RETRIES: time.sleep(2)]. *)
Definition backoff (attempt : Z) : M unit :=
  if attempt <? MAX_RETRIES then sleep 2000 else ret tt.

(** Line 102: ['results' in data or 'id' in data] *)
Definition expected_structure (data : json) : result bool :=
  let* has_results := contains_str "results" data in
  if has_results then Ok true else contains_str "id" data.

(** The body of [for attempt in range(1, MAX_RETRIES + 1)], iterated over
    the attempts still to come; after the last one, lines 146-147. *)
Fixpoint fetch_attempts (attempts : list Z) (req : Request) : M json :=
  match attempts with
  | [] =>
      modify (fun s => set_failed_requests (failed_requests s + 1) s) ;;
      ret JNull
  | attempt :: later =>
      resp <- http_get req ;;
      match resp with
      | Http status body =>
          if status =? 429 then
            sleep 10000 ;;
            fetch_attempts later req
          else if status =? 200 then
            match body with
            | Some data =>
                match expected_structure data with
                | Ok true => ret data
                | Ok false | Raise _ =>
                    backoff attempt ;;
                    fetch_attempts later req
                end
            | None =>
                backoff attempt ;;
                fetch_attempts later req
            end
          else if (status =? 401) || (status =? 403) then
            ret JNull
          else
            backoff attempt ;;
            fetch_attempts later req
      | Timeout | RequestException | OtherException =>
          backoff attempt ;;
          fetch_attempts later req
      end
  end.

(** [range(1, MAX_RETRIES + 1)] *)
Definition attempts_range : list Z :=
  map Z.of_nat (seq 1 (Z.to_nat MAX_RETRIES)).

Definition fetch_with_retry (req : Request) : M json :=
  fetch_attempts attempts_range req.

Definition fetch_movie_details (movie_id : json) : M json :=
  fetch_with_retry (Detail movie_id).

Definition fetch_movies_from_year (year page : Z) : M json :=
  fetch_with_retry (Discover year page).

End WithEnv.
End Client.
Import Client.

(* ===================================================================== *)
(** ** Checkpoint store and deduplication index *)
(* ===================================================================== *)

Definition YEARS : list Z := [2020; 2021; 2022; 2023; 2024; 2025].
Definition PAUSE_ON_ERROR : bool := true.

Module Checkpoint.

(** Lines 40-41 *)
Definition empty_progress : json :=
  JObj [("last_year", JNull); ("last_page", JNum 0);
        ("total_movies", JNum 0); ("extracted_ids", JArr [])].

(** Lines 34-36: the three [progress.get] calls of the report, inside the
    [try]. *)
Definition report_progress (doc : json) : result unit :=
  let* _ := dict_get doc "last_year" (JStr "N/A") in
  let* _ := dict_get doc "last_page" (JStr "N/A") in
  let* _ := dict_get doc "total_movies" (JNum 0) in
  Ok tt.

Definition load_progress (file : option FileContent) : json :=
  match file with
  | Some content =>
      match content with
      | Document doc =>
          match report_progress doc with
          | Ok _ => doc
          | Raise _ => empty_progress
          end
      | Malformed | Unreadable => empty_progress
      end
  | None => empty_progress
  end.

(** Line 64: [{int(row['id']) for row in reader if row.get('id')}] *)
Fixpoint scan_ids (rows : list IdCell) : result (list json) :=
  match rows with
  | [] => Ok []
  | IdBlank :: rest => scan_ids rest
  | IdInt z :: rest => let* ids := scan_ids rest in Ok (JNum z :: ids)
  | IdJunk :: _ => Raise ValueError
  end.

Definition load_existing_movie_ids (file : option OutputFile) : pyset :=
  match file with
  | Some out =>
      match scan_ids (prior_rows out) with
      | Ok ids => set_of_list ids
      | Raise _ => []
      end
  | None => []
  end.

(** [TMDbExtractor.__init__] on the files found at start-up. *)
Definition init (csv : option (list IdCell)) (checkpoint : option FileContent)
  : Session :=
  {| total_movies := 0;
     failed_requests := 0;
     extracted_ids := [];
     progress := load_progress checkpoint;
     output_file :=
       match csv with
       | Some rows => Some {| prior_rows := rows; appended := [] |}
       | None => None
       end;
     progress_file := checkpoint;
     trace := [] |}.

Section WithEnv.
Variable env : Env.

(** Lines 45-51 *)
Definition progress_document (year page : Z) (s : Session) : json :=
  JObj [("last_year", JNum year);
        ("last_page", JNum page);
        ("total_movies", JNum (total_movies s));
        ("extracted_ids", JArr (extracted_ids s));
        ("last_updated", JStr (clock env (trace s)))].

(** Lines 52-56: a failed write is reported and swallowed. *)
Definition save_progress (year page : Z) : M unit :=
  fun s =>
    let doc := progress_document year page s in
    let s' := record (EvSaveProgress doc) s in
    match disk env (trace s) with
    | Written => (Done tt, set_progress_file (Some (Document doc)) s')
    | OpenFailed => (Done tt, s')
    | DumpFailed => (Done tt, set_progress_file (Some Malformed) s')
    end.

Definition should_skip_year (year : Z) : M bool :=
  p <- gets progress ;;
  last_year <- lift (dict_get p "last_year" JNull) ;;
  match last_year with
  | JNull => ret false
  | _ => lift (int_lt year last_year)
  end.

Definition get_starting_page (year : Z) : M json :=
  p <- gets progress ;;
  last_year <- lift (dict_get p "last_year" JNull) ;;
  if eq_int last_year year
  then lift (dict_get p "last_page" (JNum 1))
  else ret (JNum 1).

End WithEnv.
End Checkpoint.
Import Checkpoint.

(* ===================================================================== *)
(** ** The pagination driver *)
(* ===================================================================== *)

Module Driver.

(** How the page loop of one year ends: it runs out or is left by
    [break], or [run] returns from inside it. *)
Inductive LoopExit : Type :=
| YearOver
| Returned.

(** How [run] ends when no exception escapes. *)
Inductive RunEnd : Type :=
| PlaceholderKey
| KeyTestFailed
| StoppedByOperator
| Completed.

Section WithEnv.
Variable env : Env.
Variable pause_on_error : bool.

Definition input : M ConsoleInput :=
  fun s =>
    let i := console env (trace s) in
    (Done i, record (EvInput i) s).

Definition valid_choice (line : string) : bool :=
  existsb (String.eqb line) ["1"; "2"; "3"; "4"].

(** Lines 238-242 *)
Fixpoint read_choice (fuel : nat) : M string :=
  match fuel with
  | O => out_of_fuel
  | S fuel' =>
      i <- input ;;
      match i with
      | Entered line => if valid_choice line then ret line else read_choice fuel'
      | Eof => raise EOFError
      end
  end.

Definition pause_on_error_prompt (fuel : nat) (year page : Z) (why : PromptReason)
  : M string :=
  modify (record (EvPrompt year page why)) ;;
  read_choice fuel.

(** Lines 389-392 *)
Definition append_row (row : MovieData) (f : option OutputFile) : option OutputFile :=
  match f with
  | Some out => Some {| prior_rows := prior_rows out; appended := appended out ++ [row] |}
  | None => Some {| prior_rows := []; appended := [row] |}
  end.

Definition write_row (movie_id : json) (row : MovieData) : M unit :=
  modify (fun s =>
    set_total_movies (total_movies s + 1)
      (set_extracted_ids (set_add movie_id (extracted_ids s))
        (set_output_file (append_row row (output_file s))
          (record (EvWriteRow movie_id row) s)))).

(** Lines 373-401: [for movie in results] *)
Fixpoint movie_loop (results : list json) : M unit :=
  match results with
  | [] => ret tt
  | movie :: rest =>
      movie_id <- lift (dict_get movie "id" JNull) ;;
      if negb (truthy movie_id) then movie_loop rest else
      ids <- gets extracted_ids ;;
      known <- lift (set_in movie_id ids) ;;
      if known then movie_loop rest else
      details <- fetch_movie_details env movie_id ;;
      (if truthy details then
         movie_data <- lift (extract_movie_data details) ;;
         match movie_data with
         | Some row => write_row movie_id row
         | None => ret tt
         end
       else ret tt) ;;
      sleep 300 ;;
      movie_loop rest
  end.

(** Lines 311-410: [while page <= total_pages].  The locals
    [year_movies] and [page_new_movies] only feed progress messages and
    are left out. *)
Fixpoint page_loop (fuel : nat) (year page total_pages consecutive_empty_pages : Z)
  : M LoopExit :=
  match fuel with
  | O => out_of_fuel
  | S fuel' =>
    if page <=? total_pages then
      data <- fetch_movies_from_year env year page ;;
      if negb (truthy data) then
        if pause_on_error then
          choice <- pause_on_error_prompt fuel' year page FailedToFetchPage ;;
          if (choice =? "1")%string then
            save_progress env year page ;;
            ret YearOver
          else if (choice =? "2")%string then
            page_loop fuel' year page total_pages consecutive_empty_pages
          else if (choice =? "3")%string then
            save_progress env year page ;;
            ret Returned
          else if (choice =? "4")%string then
            save_progress env year (page + 1) ;;
            page_loop fuel' year (page + 1) total_pages consecutive_empty_pages
          else
            (* no branch taken: line 341 runs with [data] being [None] *)
            raise AttributeError
        else
          save_progress env year page ;;
          ret YearOver
      else
        reported <- lift (dict_get data "total_pages" (JNum 1)) ;;
        total_pages' <- lift (min_int reported 500) ;;
        results <- lift (dict_get data "results" (JArr [])) ;;
        if negb (truthy results) then
          let consecutive_empty_pages' := consecutive_empty_pages + 1 in
          let next_page :=
            save_progress env year (page + 1) ;;
            sleep 1000 ;;
            page_loop fuel' year (page + 1) total_pages' consecutive_empty_pages' in
          if (consecutive_empty_pages' >=? 3) && pause_on_error then
            choice <- pause_on_error_prompt fuel' year page ConsecutiveEmptyPages ;;
            if (choice =? "1")%string then
              save_progress env year page ;;
              ret YearOver
            else if (choice =? "2")%string then
              page_loop fuel' year page total_pages' 0
            else if (choice =? "3")%string then
              save_progress env year page ;;
              ret Returned
            else next_page
          else next_page
        else
          lift (has_len results) ;;
          movies <- lift (iterate results) ;;
          movie_loop movies ;;
          save_progress env year (page + 1) ;;
          sleep 500 ;;
          page_loop fuel' year (page + 1) total_pages' 0
    else ret YearOver
  end.

(** Lines 293-413: [for year in YEARS] *)
Fixpoint year_loop (fuel : nat) (years : list Z) : M LoopExit :=
  match years with
  | [] => ret YearOver
  | year :: later =>
      skip <- should_skip_year year ;;
      if skip then year_loop fuel later else
      starting_page <- get_starting_page year ;;
      _ <- lift (gt_int starting_page 1) ;;
      match as_int starting_page with
      | Some page =>
          exit <- page_loop fuel year page 1 0 ;;
          match exit with
          | YearOver => year_loop fuel later
          | Returned => ret Returned
          end
      | None => raise TypeError
      end
  end.

(** Lines 272-291: the output file is opened for appending, or created
    with its header row. *)
Definition open_output : M unit :=
  fun s =>
    match output_file s with
    | Some _ => (Done tt, s)
    | None =>
        (Done tt,
         set_output_file (Some {| prior_rows := []; appended := [] |})
           (record EvWriteHeader s))
    end.

(** Lines 416-418 *)
Definition clear_progress : M unit :=
  fun s =>
    match progress_file s with
    | Some _ => (Done tt, set_progress_file None (record EvRemoveProgress s))
    | None => (Done tt, s)
    end.

Definition run (fuel : nat) (api_key : string) : M RunEnd :=
  if (api_key =? "YOUR_API_KEY_HERE")%string then ret PlaceholderKey else
  modify (fun s => set_extracted_ids (load_existing_movie_ids (output_file s)) s) ;;
  modify (fun s => set_total_movies (Z.of_nat (List.length (extracted_ids s))) s) ;;
  test_result <- fetch_with_retry env ApiKeyTest ;;
  if negb (truthy test_result) then ret KeyTestFailed else
  open_output ;;
  exit <- year_loop fuel YEARS ;;
  match exit with
  | Returned => ret StoppedByOperator
  | YearOver =>
      clear_progress ;;
      ret Completed
  end.

End WithEnv.

(** [main]: a fresh extractor on the files found, then [run]. *)
Definition main (env : Env) (fuel : nat) (api_key : string)
    (csv : option (list IdCell)) (checkpoint : option FileContent)
  : Outcome RunEnd * Session :=
  run env PAUSE_ON_ERROR fuel api_key (init csv checkpoint).

End Driver.
Import Driver.

(* ===================================================================== *)
(** ** Vocabulary of the statements *)
(* ===================================================================== *)

Module Spec.

(** The value a payload holds under a key, when it is a [dict] that has
    the key. *)
Definition field (key : string) (d : json) : option json :=
  match d with
  | JObj kvs => lookup key kvs
  | _ => None
  end.

(** A property of the session that a piece of program keeps, however the
    piece ends. *)
Definition preserves {A} (I : Session -> Prop) (m : M A) : Prop :=
  forall s o s', m s = (o, s') -> I s -> I s'.

(** Requests in a trace. *)
Definition requests_sent (t : list Event) : nat :=
  List.length (filter (fun e => match e with EvRequest _ _ => true | _ => false end) t).

(** The pages of a year asked of the discover endpoint, oldest first. *)
Definition pages_fetched (year : Z) (t : list Event) : list Z :=
  flat_map (fun e =>
    match e with
    | EvRequest (Discover y p) _ => if y =? year then [p] else []
    | _ => []
    end) (rev t).


(** The identifiers under which rows were written, oldest first. *)
Definition rows_written (t : list Event) : list json :=
  flat_map (fun e =>
    match e with
    | EvWriteRow v _ => [v]
    | _ => []
    end) (rev t).

(** Status codes answered so far, oldest first. *)
Definition statuses (t : list Event) : list Z :=
  flat_map (fun e =>
    match e with
    | EvRequest _ (Http status _) => [status]
    | _ => []
    end) (rev t).

(** The prompts shown so far, oldest first. *)
Definition prompts (t : list Event) : list (Z * Z * PromptReason) :=
  flat_map (fun e =>
    match e with
    | EvPrompt y p w => [(y, p, w)]
    | _ => []
    end) (rev t).

(** An event that neither fetches nor writes an identifier of [seeded]. *)
Definition unseen (seeded : pyset) (e : Event) : Prop :=
  match e with
  | EvRequest (Detail v) _ => mem v seeded = false
  | EvWriteRow v _ => mem v seeded = false
  | _ => True
  end.

(** The index still holds every seeded identifier and nothing in the
    trace touched one. *)
Definition dedup_inv (seeded : pyset) (s : Session) : Prop :=
  (forall v, mem v seeded = true -> mem v (extracted_ids s) = true)
  /\ Forall (unseen seeded) (trace s).

(** A checkpoint that was there is still there, and none was removed. *)
Definition keeps_checkpoint (had : bool) (s : Session) : Prop :=
  (had = true -> progress_file s <> None)
  /\ ~ In EvRemoveProgress (trace s).

(** The trace has grown from [t]. *)
Definition extends (t : list Event) (s : Session) : Prop :=
  exists later, trace s = later ++ t.

(** The fetch of a page succeeds with a well-formed payload that lists no
    result; [total_pages] is the page count the driver takes from it. *)
Definition empty_page (env : Env) (year page : Z) (s : Session)
    (total_pages : Z) (s' : Session) : Prop :=
  exists data reported results,
    fetch_movies_from_year env year page s = (Done data, s')
    /\ truthy data = true
    /\ dict_get data "total_pages" (JNum 1) = Ok reported
    /\ min_int reported 500 = Ok total_pages
    /\ dict_get data "results" (JArr []) = Ok results
    /\ truthy results = false.

(** Lines 364-366: the session after [page += 1], [save_progress] and the
    one-second sleep. *)
Definition turn_page (env : Env) (year page : Z) (s : Session) : Session :=
  snd ((save_progress env year (page + 1) ;; sleep 1000) s).

(** What the loop does with the operator's answer to the empty-pages
    prompt (lines 353-366). *)
Definition after_empty_prompt (env : Env) (pause : bool) (fuel : nat)
    (year page total_pages empties : Z) (choice : string) : M LoopExit :=
  if (choice =? "1")%string then
    save_progress env year page ;;
    ret YearOver
  else if (choice =? "2")%string then
    page_loop env pause fuel year page total_pages 0
  else if (choice =? "3")%string then
    save_progress env year page ;;
    ret Returned
  else
    save_progress env year (page + 1) ;;
    sleep 1000 ;;
    page_loop env pause fuel year (page + 1) total_pages empties.

End Spec.
Import Spec.

(* ===================================================================== *)
(** ** Concrete payloads, servers and files *)
(* ===================================================================== *)

Module Scenario.

Definition crew_member (name job : string) : json :=
  JObj [("name", JStr name); ("job", JStr job)].

Definition named (name : string) : json := JObj [("name", JStr name)].

(** The detail payload of the specification's transformation example,
    for any cast. *)
Definition spec_payload (names : list string) : json :=
  JObj [("credits",
         JObj [("crew", JArr [crew_member "A" "Director"; crew_member "B" "Producer"]);
               ("cast", JArr (map named names))]);
        ("genres", JArr [named "Drama"; named "Thriller"])].

Definition twelve : list string :=
  ["X"; "Y"; "Z"; "P"; "Q"; "R"; "S"; "T"; "U"; "V"; "W"; "K"].

Definition listed (movie_id : Z) : json :=
  JObj [("id", JNum movie_id); ("title", JStr "T")].

Definition page_of (results : list json) (total_pages : Z) : json :=
  JObj [("results", JArr results); ("total_pages", JNum total_pages)].

Definition details_of (movie_id : json) : json :=
  JObj [("id", movie_id); ("title", JStr "T"); ("release_date", JStr "2022-03-04")].

Definition ok (body : json) : Response := Http 200 (Some body).

(** A well-behaved upstream: every year has [pages] pages of one movie
    each, numbered [year * 100 + page]. *)
Definition catalog_server (pages : Z) (req : Request) : Response :=
  match req with
  | ApiKeyTest => ok (JObj [("id", JNum 550)])
  | Discover y p => ok (page_of [listed (y * 100 + p)] pages)
  | Detail v => ok (details_of v)
  end.

Definition at_noon : list Event -> string := fun _ => "2026-01-01T12:00:00".

Definition catalog (pages : Z) : Env :=
  {| server := fun _ => catalog_server pages;
     console := fun _ => Eof;
     clock := at_noon;
     disk := fun _ => Written |}.

(** A checkpoint left by a run that was killed in 2022 after page 4. *)
Definition resume_checkpoint : json :=
  JObj [("last_year", JNum 2022); ("last_page", JNum 5);
        ("total_movies", JNum 4);
        ("extracted_ids",
         JArr [JNum 202201; JNum 202202; JNum 202203; JNum 202204]);
        ("last_updated", JStr "2025-12-31T23:59:59")].

Definition resume_rows : list IdCell :=
  [IdInt 202201; IdInt 202202; IdInt 202203; IdInt 202204].

(** An upstream that answers 429 to everything. *)
Definition quota_env : Env :=
  {| server := fun _ _ => Http 429 None;
     console := fun _ => Eof;
     clock := at_noon;
     disk := fun _ => Written |}.


Definition single_page_server (movie_id : Z) (req : Request) : Response :=
  match req with
  | ApiKeyTest => ok (JObj [("id", JNum 550)])
  | Discover _ _ => ok (page_of [listed movie_id] 1)
  | Detail v => ok (details_of v)
  end.

Definition single_page (movie_id : Z) : Env :=
  {| server := fun _ => single_page_server movie_id;
     console := fun _ => Eof;
     clock := at_noon;
     disk := fun _ => Written |}.

(** An upstream whose credential is refused for the 2020 pages only, with
    an operator who answers every prompt with [answer]. *)
Definition refusing_server (status : Z) (req : Request) : Response :=
  match req with
  | Discover 2020 _ => Http status None
  | _ => catalog_server 1 req
  end.

Definition attended (srv : Request -> Response) (answer : string) : Env :=
  {| server := fun _ => srv;
     console := fun _ => Entered answer;
     clock := at_noon;
     disk := fun _ => Written |}.

Definition old_checkpoint : json :=
  JObj [("last_year", JNum 2020); ("last_page", JNum 1);
        ("total_movies", JNum 0); ("extracted_ids", JArr []);
        ("last_updated", JStr "2025-12-31T23:59:59")].

(** An upstream that never lists anything, with ten pages a year, and an
    operator who answers "2" once and "3" from then on. *)
Definition barren_server (req : Request) : Response :=
  match req with
  | ApiKeyTest => ok (JObj [("id", JNum 550)])
  | Discover _ _ => ok (page_of [] 10)
  | Detail v => ok (details_of v)
  end.

Definition barren : Env :=
  {| server := fun _ => barren_server;
     console := fun t =>
       if (List.length (prompts t) <=? 1)%nat then Entered "2" else Entered "3";
     clock := at_noon;
     disk := fun _ => Written |}.

(** The session of the specification's round-trip example. *)
Definition round_trip_session : Session :=
  {| total_movies := 1200;
     failed_requests := 0;
     extracted_ids := [JNum 10; JNum 11; JNum 12];
     progress := empty_progress;
     output_file := None;
     progress_file := None;
     trace := [] |}.

End Scenario.
Import Scenario.

(* ===================================================================== *)
(** ** Further vocabulary: what a trace and a session show *)
(* ===================================================================== *)

Module Observe.

(** A [.get(key, "")] seen from outside: the value under the key, the
    empty string when the key is missing. *)
Definition or_empty (o : option json) : json :=
  match o with
  | Some v => v
  | None => JStr ""
  end.

(** [person.get("job") == "Director"] for a crew entry that is a [dict]. *)
Definition directs (person : json) : bool :=
  match field "job" person with
  | Some job => eq_str job "Director"
  | None => false
  end.

(** The character occurs in the string. *)
Fixpoint has_char (c : ascii) (s : string) : bool :=
  match s with
  | EmptyString => false
  | String c' rest => Ascii.eqb c' c || has_char c rest
  end.

(** The answers after which [fetch_with_retry] backs off and tries again:
    an exception of [session.get], a 200 whose body does not decode or
    fails the structure test, and any other status but 429, 401 and
    403. *)
Definition retryable (r : Response) : bool :=
  match r with
  | Http status body =>
      if status =? 429 then false
      else if status =? 200 then
        match body with
        | Some data =>
            match expected_structure data with
            | Ok true => false
            | _ => true
            end
        | None => true
        end
      else negb ((status =? 401) || (status =? 403))
  | _ => true
  end.

(** Sleep durations in a trace, oldest first, and their sum. *)
Definition sleeps (t : list Event) : list Z :=
  flat_map (fun e =>
    match e with
    | EvSleep ms => [ms]
    | _ => []
    end) (rev t).

Definition slept (t : list Event) : Z :=
  fold_right (fun e acc =>
    match e with
    | EvSleep ms => ms + acc
    | _ => acc
    end) 0 t.

(** The identifiers under which rows were written, most recent first,
    and the rows themselves, oldest first. *)
Definition written_keys (t : list Event) : list json :=
  flat_map (fun e =>
    match e with
    | EvWriteRow v _ => [v]
    | _ => []
    end) t.

Definition written_rows (t : list Event) : list MovieData :=
  flat_map (fun e =>
    match e with
    | EvWriteRow _ row => [row]
    | _ => []
    end) (rev t).

(** No member of the list equals, as Python compares, one that comes
    after it. *)
Fixpoint distinct (l : list json) : Prop :=
  match l with
  | [] => True
  | v :: rest => mem v rest = false /\ distinct rest
  end.

(** Header rows written. *)
Definition headers (t : list Event) : nat :=
  List.length (filter (fun e => match e with EvWriteHeader => true | _ => false end) t).

(** What a step leaves alone when it only talks to the network. *)
Definition same_data (s s' : Session) : Prop :=
  total_movies s' = total_movies s
  /\ extracted_ids s' = extracted_ids s
  /\ progress s' = progress s
  /\ output_file s' = output_file s
  /\ progress_file s' = progress_file s.

(** Every page request in the trace is one that [allowed] admits. *)
Definition pages_within (allowed : Z -> Z -> Prop) (s : Session) : Prop :=
  forall y p resp, In (EvRequest (Discover y p) resp) (trace s) -> allowed y p.

(** An event that is no page request, or is one [allowed] admits. *)
Definition admits (allowed : Z -> Z -> Prop) (e : Event) : Prop :=
  match e with
  | EvRequest (Discover y p) _ => allowed y p
  | _ => True
  end.

(** The page requests so far are allowed ones and the loaded checkpoint
    is [loaded]. *)
Definition asked (allowed : Z -> Z -> Prop) (loaded : json) (s : Session) : Prop :=
  pages_within allowed s /\ progress s = loaded.

(** The counter and the index agree, and so does every checkpoint
    document saved so far. *)
Definition counted (s : Session) : Prop :=
  total_movies s = Z.of_nat (List.length (extracted_ids s))
  /\ forall doc, In (EvSaveProgress doc) (trace s) ->
       exists n ids,
         field "total_movies" doc = Some (JNum n)
         /\ field "extracted_ids" doc = Some (JArr ids)
         /\ n = Z.of_nat (List.length ids).

(** Any event but a checkpoint save. *)
Definition not_a_save (e : Event) : Prop :=
  match e with
  | EvSaveProgress _ => False
  | _ => True
  end.

(** The property kept while an item that is not in the index is
    fetched. *)
Definition counted_without (v : json) (s : Session) : Prop :=
  counted s /\ mem v (extracted_ids s) = false.




(** The output file holds the rows found at start-up followed by the rows
    written, in the order they were written. *)
Definition appended_only (found : option (list IdCell)) (s : Session) : Prop :=
  match output_file s with
  | Some out =>
      prior_rows out = match found with Some rows => rows | None => [] end
      /\ appended out = written_rows (trace s)
      /\ (found <> None -> headers (trace s) = 0%nat)
      /\ (found = None -> headers (trace s) = 1%nat)
  | None =>
      found = None /\ written_rows (trace s) = [] /\ headers (trace s) = 0%nat
  end.

(** Any event but the writing of a row or of the header. *)
Definition not_an_output (e : Event) : Prop :=
  match e with
  | EvWriteRow _ _ | EvWriteHeader => False
  | _ => True
  end.

(** The same, with the output file open. *)
Definition appending (found : option (list IdCell)) (s : Session) : Prop :=
  appended_only found s /\ output_file s <> None.

(** An item of a page the loop passes over: a [dict] whose identifier is
    missing or falsy, or can be a key and is in the index. *)
Definition passed_over (ids : pyset) (movie : json) : Prop :=
  exists kvs,
    movie = JObj kvs
    /\ (truthy (match lookup "id" kvs with Some v => v | None => JNull end) = false
        \/ exists v, lookup "id" kvs = Some v
                     /\ hashable v = true /\ mem v ids = true).

(** From a session with [P], the program ends, however it ends, in a
    session with [Q]. *)
Definition leads {A} (P Q : Session -> Prop) (m : M A) : Prop :=
  forall s o s', m s = (o, s') -> P s -> Q s'.

(** A property of the value and the session a program ends with when it
    ends normally. *)
Definition ends_with {A} (m : M A) (Q : A -> Session -> Prop) : Prop :=
  forall s a s', m s = (Done a, s') -> Q a s'.

(** The last effect was a checkpoint save for [year], and the file holds
    what the disk made of it. *)
Definition just_saved (env : Env) (year : Z) (s : Session) : Prop :=
  exists doc before,
    trace s = EvSaveProgress doc :: before
    /\ field "last_year" doc = Some (JNum year)
    /\ (disk env before = Written -> progress_file s = Some (Document doc)).

(** What holds when the page loop of [year] ends by [return]. *)
Definition stopped_in (env : Env) (year : Z) (exit : LoopExit) (s : Session) : Prop :=
  exit = Returned -> just_saved env year s.

(** What holds when the loop over [years] ends by [return]. *)
Definition stopped_among (env : Env) (years : list Z) (exit : LoopExit)
    (s : Session) : Prop :=
  exit = Returned -> exists year, In year years /\ just_saved env year s.

(** The detail endpoint answers every request with a payload that holds,
    under [id], the identifier it was asked for. *)
Definition echoes_id (env : Env) : Prop :=
  forall t v data,
    server env t (Detail v) = Http 200 (Some data) -> field "id" data = Some v.



(** The [id] cells of the rows written, most recent first. *)
Definition written_ids (t : list Event) : list json :=
  flat_map (fun e =>
    match e with
    | EvWriteRow _ row => [id row]
    | _ => []
    end) t.

(** One turn of the page loop on a page that comes back empty, after
    which the loop goes on to the next page: without a word when the
    counter stays below three, and otherwise after the operator answered
    the prompt with "4".  [fuel] is what the prompt may use. *)
Definition empty_turn (env : Env) (fuel : nat) (year page empties : Z)
    (s : Session) (total_pages : Z) (s' : Session) : Prop :=
  exists s1,
    empty_page env year page s total_pages s1
    /\ ((empties + 1 < 3 /\ s' = turn_page env year page s1)
        \/ (3 <= empties + 1
            /\ exists s2,
                 pause_on_error_prompt env fuel year page ConsecutiveEmptyPages s1
                 = (Done "4", s2)
                 /\ s' = turn_page env year page s2)).

End Observe.
Import Observe.

(* ===================================================================== *)
(** ** Further payloads and environments *)
(* ===================================================================== *)

Module Samples.

(** "a", line feed, "b", carriage return, "c" *)
Definition two_breaks : string :=
  String "a" (String LF (String "b" (String CR (String "c" EmptyString)))).

(** A detail payload with an entry that is no [dict] after the director
    and after the tenth cast member. *)
Definition sample_details : json :=
  JObj [("id", JNum 550);
        ("title", JStr "Fight Club");
        ("release_date", JStr "1999-10-15");
        ("overview", JStr two_breaks);
        ("credits",
         JObj [("crew", JArr [crew_member "P" "Producer"; crew_member "D" "Director";
                              JNull]);
               ("cast", JArr (map named twelve ++ [JNum 0]))]);
        ("genres", JArr [named "Drama"]);
        ("production_companies", JArr [named "Fox"; named "Regency"])].

Definition sample_credits : json :=
  JObj [("crew", JArr [crew_member "P" "Producer"; crew_member "D" "Director";
                       JNull]);
        ("cast", JArr (map named twelve ++ [JNum 0]))].

(** A detail payload whose overview is [null]. *)
Definition null_overview : json :=
  JObj [("id", JNum 550); ("overview", JNull)].

(** An upstream that answers the probe with a page that is no JSON. *)
Definition maintenance : Env :=
  attended (fun _ => Http 200 None) "1".

(** An operator who mistypes twice before answering "3". *)
Definition hesitant : Env :=
  {| server := fun _ _ => Timeout;
     console := fun t =>
       match t with
       | EvPrompt _ _ _ :: _ => Entered "yes"
       | [EvInput _; EvPrompt _ _ _] => Entered ""
       | _ => Entered "3"
       end;
     clock := at_noon;
     disk := fun _ => Written |}.

(** A session whose index holds two identifiers, and a page that lists
    them between an item without identifier and one whose identifier is
    0. *)
Definition seen_session : Session :=
  set_extracted_ids [JNum 202201; JNum 202204] (init None None).

Definition seen_page : list json :=
  [listed 202201; JObj [("title", JStr "T")]; listed 0; listed 202204].

(** An upstream that never lists anything, with an operator who answers
    the first prompt with "4" and the later ones with "2". *)
Definition patient : Env :=
  {| server := fun _ => barren_server;
     console := fun t =>
       if (List.length (prompts t) <=? 1)%nat then Entered "4" else Entered "2";
     clock := at_noon;
     disk := fun _ => Written |}.

(** An upstream that lists movies 5 and 6 on the one page of 2020 and
    answers every detail request with the record of movie 1. *)
Definition stale_server (req : Request) : Response :=
  match req with
  | ApiKeyTest => ok (JObj [("id", JNum 550)])
  | Discover 2020 1 => ok (page_of [listed 5; listed 6] 1)
  | Discover _ _ => ok (page_of [] 1)
  | Detail _ => ok (details_of (JNum 1))
  end.

Definition stale : Env := attended stale_server "1".

(** An upstream that answers the probe with a list, not a [dict]. *)
Definition list_body : Env :=
  attended (fun _ => ok (JArr [JStr "results"])) "1".

End Samples.
Import Samples.

(* ===================================================================== *)
(** ** Facts about the Python operations *)
(* ===================================================================== *)

Section PyFacts.

Lemma scalar_eq_num (z : Z) : scalar_eq (JNum z) (JNum z) = true.
Proof. unfold scalar_eq, as_int. apply Z.eqb_refl. Qed.

Lemma scalar_eq_trans (a b c : json) :
  scalar_eq a b = true -> scalar_eq b c = true -> scalar_eq a c = true.
Proof.
  destruct a as [|[|]| | | |], b as [|[|]| | | |], c as [|[|]| | | |];
    unfold scalar_eq, as_int; cbv beta iota; intros H1 H2;
    try discriminate; try reflexivity;
    rewrite ?Z.eqb_eq, ?String.eqb_eq in *; try congruence; try lia.
Qed.

Lemma mem_app (v : json) (s1 s2 : pyset) : mem v (s1 ++ s2) = mem v s1 || mem v s2.
Proof. apply existsb_app. Qed.

Lemma mem_eq_member (v w : json) (s : pyset) :
  scalar_eq v w = true -> mem w s = true -> mem v s = true.
Proof.
  unfold mem. intros E H. apply existsb_exists in H as (y & Hy & Ewy).
  apply existsb_exists. exists y. split; [exact Hy|].
  eapply scalar_eq_trans; eauto.
Qed.

(** A [set] only grows under [add]. *)
Lemma mem_set_add_mono (v w : json) (s : pyset) :
  mem v s = true -> mem v (set_add w s) = true.
Proof.
  intros H. unfold set_add. destruct (mem w s); [exact H|].
  rewrite mem_app, H. reflexivity.
Qed.

Lemma mem_set_add_new (v w : json) (s : pyset) :
  scalar_eq v w = true -> mem v (set_add w s) = true.
Proof.
  intros E. unfold set_add. destruct (mem w s) eqn:Em.
  - eapply mem_eq_member; eauto.
  - rewrite mem_app. cbn. rewrite E. apply orb_true_r.
Qed.

Lemma mem_fold_add (v : json) (l : list json) :
  forall acc,
    mem v acc = true \/ (exists w, In w l /\ scalar_eq v w = true) ->
    mem v (fold_left (fun s x => set_add x s) l acc) = true.
Proof.
  induction l as [|x l IH]; intros acc [H | (w & Hw & E)]; cbn [fold_left].
  - exact H.
  - destruct Hw.
  - apply IH. left. apply mem_set_add_mono. exact H.
  - destruct Hw as [-> | Hw].
    + apply IH. left. apply mem_set_add_new. exact E.
    + apply IH. right. eauto.
Qed.

Lemma all_str_map (names : list string) : all_str (map JStr names) = Ok names.
Proof.
  induction names as [|n names IH]; simpl; [reflexivity|].
  rewrite IH. reflexivity.
Qed.

End PyFacts.

(* ===================================================================== *)
(** ** The record transformer *)
(* ===================================================================== *)

Section TransformerFacts.

Lemma names_of_named (names : list string) :
  names_of (map named names) = Ok (map JStr names).
Proof.
  unfold names_of. induction names as [|n names IH]; simpl; [reflexivity|].
  rewrite IH. reflexivity.
Qed.

(** Whatever the cast list holds, only its first ten entries are read. *)
Lemma top_cast_list (crew : json) (l : list json) (others : list (string * json)) :
  top_cast (JObj (("credits", JObj [("crew", crew); ("cast", JArr l)]) :: others))
  = (let* cast_names := names_of (firstn 10 l) in join_comma cast_names).
Proof. destruct l; reflexivity. Qed.

Lemma top_cast_named (names : list string) (others : list (string * json))
    (crew : json) :
  top_cast (JObj (("credits", JObj [("crew", crew); ("cast", JArr (map named names))])
                  :: others))
  = Ok (String.concat ", " (firstn 10 names)).
Proof.
  rewrite top_cast_list, firstn_map, names_of_named. cbn [rbind].
  unfold join_comma. rewrite all_str_map. reflexivity.
Qed.

(** C8. For the payload of the specification (crew A/Director and
    B/Producer, genres Drama and Thriller) with any twelve cast names, the
    transformer returns a record whose director is "A", whose cast field
    is the first ten names, in order, joined by ", ", and whose genres
    field is "Drama, Thriller". *)
Theorem transform_spec_payload (names : list string) :
  List.length names = 12%nat ->
  exists r,
    extract_movie_data (spec_payload names) = Ok (Some r)
    /\ director r = JStr "A"
    /\ cast r = String.concat ", " (firstn 10 names)
    /\ List.length (firstn 10 names) = 10%nat
    /\ genres r = "Drama, Thriller".
Proof.
  intros Hlen.
  assert (Hten : List.length (firstn 10 names) = 10%nat)
    by (rewrite length_firstn; lia).
  unfold extract_movie_data, spec_payload.
  cbn [truthy negb].
  rewrite top_cast_named.
  set (shown := String.concat ", " (firstn 10 names)).
  cbn. eexists. split; [reflexivity|].
  cbn [director cast genres]. repeat split. exact Hten.
Qed.

Lemma transform_spec_payload_witness :
  exists r,
    extract_movie_data (spec_payload twelve) = Ok (Some r)
    /\ director r = JStr "A"
    /\ cast r = "X, Y, Z, P, Q, R, S, T, U, V"
    /\ List.length (firstn 10 twelve) = 10%nat
    /\ genres r = "Drama, Thriller".
Proof. exact (transform_spec_payload twelve eq_refl). Defined.

Ltac rbind_inv H :=
  match type of H with
  | rbind ?r _ = Ok _ =>
      let E := fresh "E" in
      destruct r eqn:E; [cbn [rbind] in H | discriminate H]
  end.

Lemma derive_year_string (d : json) (s : string) :
  field "release_date" d = Some (JStr s) ->
  derive_year d = Ok (JStr (str_take 4 s)).
Proof.
  destruct d; try discriminate. cbn [field]. intros E.
  unfold derive_year, dict_get. rewrite E. cbn [rbind truthy].
  destruct s; reflexivity.
Qed.

Lemma derive_year_absent (d : json) (y : json) :
  field "release_date" d = None \/ field "release_date" d = Some JNull ->
  derive_year d = Ok y ->
  y = JStr "".
Proof.
  intros Habs H. destruct d; try discriminate.
  cbn [field] in Habs. unfold derive_year, dict_get in H.
  destruct Habs as [E|E]; rewrite E in H; cbn in H; congruence.
Qed.

Lemma extract_year (d : json) (r : MovieData) :
  extract_movie_data d = Ok (Some r) -> derive_year d = Ok (year r).
Proof.
  unfold extract_movie_data. intros H.
  destruct (negb (truthy d)); [discriminate|].
  repeat rbind_inv H.
  injection H as <-. reflexivity.
Qed.

(** A payload that holds nothing but an identifier and a release date is
    transformed, whatever the date string. *)
Lemma extract_dated (s : string) :
  exists r,
    extract_movie_data (JObj [("id", JNum 1); ("release_date", JStr s)]) = Ok (Some r)
    /\ year r = JStr (str_take 4 s).
Proof. destruct s; eexists; split; reflexivity. Qed.

(** C9. Whenever the transformer returns a record, its year field is the
    first four characters of the release date when that is a string, and
    the empty string when the release date is missing or null. *)
Theorem derived_period_field (d : json) (r : MovieData) :
  extract_movie_data d = Ok (Some r) ->
  (forall s, field "release_date" d = Some (JStr s) ->
             year r = JStr (str_take 4 s))
  /\ (field "release_date" d = None \/ field "release_date" d = Some JNull ->
      year r = JStr "").
Proof.
  intros H. apply extract_year in H. split.
  - intros s E. rewrite (derive_year_string d s E) in H. congruence.
  - intros E. eapply derive_year_absent; eauto.
Qed.

Lemma derived_period_field_witness :
  (exists r, extract_movie_data (JObj [("release_date", JStr "2021-07-04")]) = Ok (Some r)
             /\ year r = JStr "2021")
  /\ (exists r, extract_movie_data (JObj [("id", JNum 550)]) = Ok (Some r)
                /\ year r = JStr "").
Proof.
  split; eexists; (split; [reflexivity|]).
  - exact (proj1 (derived_period_field
                    (JObj [("release_date", JStr "2021-07-04")]) _ eq_refl)
                 "2021-07-04" eq_refl).
  - exact (proj2 (derived_period_field (JObj [("id", JNum 550)]) _ eq_refl)
                 (or_introl eq_refl)).
Defined.

End TransformerFacts.

(* ===================================================================== *)
(** ** The checkpoint store *)
(* ===================================================================== *)

Section CheckpointFacts.

(** A document that is not a JSON object is discarded as well. *)
Lemma load_progress_not_a_dict (doc : json) :
  (forall kvs, doc <> JObj kvs) ->
  load_progress (Some (Document doc)) = empty_progress.
Proof. intros H. destruct doc; try reflexivity. destruct (H kvs eq_refl). Qed.

(** C10. A checkpoint file that [json.load] rejects, or that cannot be
    read, loads as the empty checkpoint, exactly as an absent file does;
    the session then skips no year and starts every year at page 1. *)
Theorem unparsable_checkpoint_is_absent (content : FileContent) :
  content = Malformed \/ content = Unreadable ->
  load_progress (Some content) = empty_progress
  /\ load_progress (Some content) = load_progress None
  /\ forall (csv : option (list IdCell)) (year : Z),
       let s := init csv (Some content) in
       progress s = progress (init csv None)
       /\ should_skip_year year s = (Done false, s)
       /\ get_starting_page year s = (Done (JNum 1), s).
Proof.
  intros [-> | ->]; repeat split.
Qed.

Lemma unparsable_checkpoint_is_absent_witness :
  load_progress (Some Malformed) = empty_progress
  /\ load_progress (Some Unreadable) = empty_progress.
Proof.
  split.
  - exact (proj1 (unparsable_checkpoint_is_absent Malformed (or_introl eq_refl))).
  - exact (proj1 (unparsable_checkpoint_is_absent Unreadable (or_intror eq_refl))).
Defined.

(** C7. When the write succeeds, the document [save_progress] leaves on
    disk loads back with the year, the page, the running total and the
    identifiers of the session that saved it, and a new extractor starts
    from it. *)
Theorem checkpoint_round_trip (env : Env) (s : Session) (year page : Z) :
  disk env (trace s) = Written ->
  let s' := snd (save_progress env year page s) in
  let reloaded := load_progress (progress_file s') in
  dict_get reloaded "last_year" JNull = Ok (JNum year)
  /\ dict_get reloaded "last_page" (JNum 1) = Ok (JNum page)
  /\ dict_get reloaded "total_movies" (JNum 0) = Ok (JNum (total_movies s))
  /\ (exists ids, dict_get reloaded "extracted_ids" JNull = Ok (JArr ids)
                  /\ forall v, In v ids <-> In v (extracted_ids s))
  /\ progress (init None (progress_file s')) = reloaded.
Proof.
  intros Hdisk. unfold save_progress. rewrite Hdisk. cbn.
  repeat split; try reflexivity.
  exists (extracted_ids s). split; [reflexivity|tauto].
Qed.

Lemma checkpoint_round_trip_witness :
  let s' := snd (save_progress (catalog 1) 2022 5 round_trip_session) in
  let reloaded := load_progress (progress_file s') in
  dict_get reloaded "last_year" JNull = Ok (JNum 2022)
  /\ dict_get reloaded "last_page" (JNum 1) = Ok (JNum 5)
  /\ dict_get reloaded "total_movies" (JNum 0) = Ok (JNum 1200)
  /\ (exists ids, dict_get reloaded "extracted_ids" JNull = Ok (JArr ids)
                  /\ forall v, In v ids <-> In v [JNum 10; JNum 11; JNum 12])
  /\ progress (init None (progress_file s')) = reloaded.
Proof. exact (checkpoint_round_trip (catalog 1) round_trip_session 2022 5 eq_refl). Defined.

End CheckpointFacts.

(* ===================================================================== *)
(** ** Reasoning about programs *)
(* ===================================================================== *)

Section Programs.

Lemma bind_ret {A B} (a : A) (k : A -> M B) (s : Session) :
  bind (ret a) k s = k a s.
Proof. reflexivity. Qed.

Lemma bind_lift_ok {A B} (a : A) (k : A -> M B) (s : Session) :
  bind (lift (Ok a)) k s = k a s.
Proof. reflexivity. Qed.

Lemma bind_run {A B} (m : M A) (k : A -> M B) (s s1 : Session) (a : A) :
  m s = (Done a, s1) -> bind m k s = k a s1.
Proof. intros H. unfold bind. rewrite H. reflexivity. Qed.

Lemma bind_inv {A B} (m : M A) (k : A -> M B) (s : Session)
    (o : Outcome B) (s' : Session) :
  bind m k s = (o, s') ->
  (exists a s1, m s = (Done a, s1) /\ k a s1 = (o, s'))
  \/ (exists e, m s = (Uncaught e, s') /\ o = Uncaught e)
  \/ (m s = (OutOfFuel, s') /\ o = OutOfFuel).
Proof.
  unfold bind. destruct (m s) as [[a | e |] s1]; intros H.
  - left; eauto.
  - inversion H; subst; right; left; eauto.
  - inversion H; subst; right; right; eauto.
Qed.

Context {I : Session -> Prop}.

Lemma preserves_ret {A} (a : A) : preserves I (ret a).
Proof. intros s o s' H; inversion H; subst; auto. Qed.

Lemma preserves_raise {A} (e : exc) : preserves I (@raise A e).
Proof. intros s o s' H; inversion H; subst; auto. Qed.

Lemma preserves_out_of_fuel {A} : preserves I (@out_of_fuel A).
Proof. intros s o s' H; inversion H; subst; auto. Qed.

Lemma preserves_lift {A} (r : result A) : preserves I (lift r).
Proof. destruct r; [apply preserves_ret | apply preserves_raise]. Qed.

Lemma preserves_gets {A} (f : Session -> A) : preserves I (gets f).
Proof. intros s o s' H; inversion H; subst; auto. Qed.

Lemma preserves_modify (f : Session -> Session) :
  (forall s, I s -> I (f s)) -> preserves I (modify f).
Proof. intros Hf s o s' H; inversion H; subst; auto. Qed.

Lemma preserves_bind {A B} (m : M A) (k : A -> M B) :
  preserves I m -> (forall a, preserves I (k a)) -> preserves I (bind m k).
Proof.
  intros Hm Hk s o s' H Hs.
  apply bind_inv in H as [(a & s1 & E & H) | [(e & E & _) | [E _]]].
  - eapply Hk; eauto.
  - eapply Hm; eauto.
  - eapply Hm; eauto.
Qed.

End Programs.

(** Goes through a program along its syntax; what is left are the
    primitive steps, looked up among the hypotheses. *)
Ltac preserve_step :=
  match goal with
  | |- preserves _ (bind _ _) => apply preserves_bind; [|intros ?]
  | |- preserves _ (ret _) => apply preserves_ret
  | |- preserves _ (raise _) => apply preserves_raise
  | |- preserves _ out_of_fuel => apply preserves_out_of_fuel
  | |- preserves _ (lift _) => apply preserves_lift
  | |- preserves _ (gets _) => apply preserves_gets
  | |- preserves _ (if ?b then _ else _) => destruct b
  | |- preserves _ (match ?x with _ => _ end) => destruct x
  | |- preserves _ _ => solve [eauto]
  end.

Ltac preserve := repeat preserve_step.

(** Opens a primitive step: the session before, the outcome, the session
    after and the equation between them. *)
Ltac prim :=
  let s := fresh "s" in
  let o := fresh "o" in
  let s' := fresh "s'" in
  let H := fresh "H" in
  let Hs := fresh "Hs" in
  intros s o s' H Hs;
  cbv [http_get sleep modify input save_progress write_row open_output
       clear_progress] in H.

(** What the primitive steps keep, the loops keep. *)
Section Stable.
Variable env : Env.
Variable pause : bool.
Variable I : Session -> Prop.

Hypothesis I_sleep : forall ms, preserves I (sleep ms).
Hypothesis I_failed :
  preserves I (modify (fun s => set_failed_requests (failed_requests s + 1) s)).

Lemma preserves_backoff (attempt : Z) : preserves I (backoff attempt).
Proof. unfold backoff. preserve. Qed.

Lemma preserves_fetch_attempts (req : Request) :
  preserves I (http_get env req) ->
  forall attempts, preserves I (fetch_attempts env attempts req).
Proof.
  intros Hget attempts.
  pose proof preserves_backoff as Hb.
  induction attempts as [|attempt later IH]; cbn [fetch_attempts]; preserve.
Qed.

Hypothesis I_detail_write :
  forall v, (forall s, I s -> mem v (extracted_ids s) = false ->
             preserves I (http_get env (Detail v))
             /\ forall row, preserves I (write_row v row)).

Lemma preserves_movie_loop (l : list json) : preserves I (movie_loop env l).
Proof.
  induction l as [|movie rest IH]; cbn [movie_loop]; [apply preserves_ret|].
  apply preserves_bind; [apply preserves_lift|]. intros movie_id.
  destruct (negb (truthy movie_id)); [exact IH|].
  intros s o s' H Hs. unfold bind at 1 in H. cbn [gets] in H.
  unfold set_in in H. destruct (hashable movie_id).
  2: { inversion H; subst. exact Hs. }
  rewrite bind_lift_ok in H.
  destruct (mem movie_id (extracted_ids s)) eqn:Hknown.
  { eapply IH; eauto. }
  destruct (I_detail_write movie_id s Hs Hknown) as [Hget Hwrite].
  assert (Hf : preserves I (fetch_movie_details env movie_id))
    by (apply preserves_fetch_attempts; exact Hget).
  revert H Hs. generalize s o s'.
  change (preserves I
    (details <- fetch_movie_details env movie_id ;;
     (if truthy details
      then movie_data <- lift (extract_movie_data details) ;;
           match movie_data with
           | Some row => write_row movie_id row
           | None => ret tt
           end
      else ret tt) ;;
     sleep 300 ;;
     movie_loop env rest)).
  preserve.
Qed.

Hypothesis I_input : preserves I (input env).
Hypothesis I_prompt : forall y p w, preserves I (modify (record (EvPrompt y p w))).

Lemma preserves_read_choice (fuel : nat) : preserves I (read_choice env fuel).
Proof. induction fuel as [|fuel IH]; cbn [read_choice]; preserve. Qed.

Lemma preserves_prompt (fuel : nat) (y p : Z) (w : PromptReason) :
  preserves I (pause_on_error_prompt env fuel y p w).
Proof.
  pose proof preserves_read_choice as Hr.
  unfold pause_on_error_prompt. preserve.
Qed.

Hypothesis I_save : forall y p, preserves I (save_progress env y p).
Hypothesis I_discover : forall y p, preserves I (http_get env (Discover y p)).

Lemma preserves_page_loop (fuel : nat) :
  forall year page total empties,
    preserves I (page_loop env pause fuel year page total empties).
Proof.
  pose proof preserves_prompt as Hp.
  pose proof preserves_movie_loop as Hm.
  assert (Hf : forall y p, preserves I (fetch_movies_from_year env y p))
    by (intros; apply preserves_fetch_attempts; auto).
  induction fuel as [|fuel IH]; intros; cbn [page_loop]; preserve.
Qed.

Lemma preserves_should_skip_year (year : Z) : preserves I (should_skip_year year).
Proof. unfold should_skip_year. preserve. Qed.

Lemma preserves_get_starting_page (year : Z) : preserves I (get_starting_page year).
Proof. unfold get_starting_page. preserve. Qed.

Lemma preserves_year_loop (fuel : nat) (years : list Z) :
  preserves I (year_loop env pause fuel years).
Proof.
  pose proof preserves_page_loop as Hp.
  pose proof preserves_should_skip_year as Hs.
  pose proof preserves_get_starting_page as Hg.
  induction years as [|year later IH]; cbn [year_loop]; preserve.
Qed.

Hypothesis I_key_test : preserves I (http_get env ApiKeyTest).
Hypothesis I_open : preserves I open_output.


End Stable.

(* ===================================================================== *)
(** ** The fetch client *)
(* ===================================================================== *)

Section ClientFacts.
Variable env : Env.

Lemma backoff_requests (attempt : Z) (s : Session) :
  requests_sent (trace (snd (backoff attempt s))) = requests_sent (trace s).
Proof. unfold backoff. destruct (attempt <? MAX_RETRIES); reflexivity. Qed.

Lemma backoff_done (attempt : Z) (s : Session) : fst (backoff attempt s) = Done tt.
Proof. unfold backoff. destruct (attempt <? MAX_RETRIES); reflexivity. Qed.

(** Each attempt sends one request, whatever comes back. *)
Lemma fetch_attempts_bound (req : Request) (attempts : list Z) :
  forall s,
    (requests_sent (trace (snd (fetch_attempts env attempts req s)))
     <= requests_sent (trace s) + List.length attempts)%nat.
Proof.
  induction attempts as [|attempt later IH]; intros s.
  - change (requests_sent (trace s) <= requests_sent (trace s) + 0)%nat. lia.
  - assert (Hb : forall s1,
      (requests_sent (trace (snd (bind (backoff attempt)
                                   (fun _ => fetch_attempts env later req) s1)))
       <= requests_sent (trace s1) + List.length later)%nat).
    { intros s1. unfold bind.
      pose proof (backoff_done attempt s1) as Hd.
      pose proof (backoff_requests attempt s1) as Hr.
      destruct (backoff attempt s1) as [o s2]. cbn in Hd, Hr. subst o.
      specialize (IH s2). lia. }
    cbn [fetch_attempts]. unfold bind at 1. cbn [http_get].
    set (s1 := record _ s).
    assert (Hs1 : requests_sent (trace s1) = S (requests_sent (trace s))) by reflexivity.
    cbn [List.length].
    destruct (server env (trace s) req) as [| | |status body].
    1-3: specialize (Hb s1); lia.
    destruct (status =? 429).
    { unfold bind, sleep, modify. specialize (IH (record (EvSleep 10000) s1)).
      change (requests_sent (trace (record (EvSleep 10000) s1)))
        with (requests_sent (trace s1)) in IH. lia. }
    destruct (status =? 200).
    { destruct body as [data|]; [|specialize (Hb s1); lia].
      destruct (expected_structure data) as [[|]|]; try (specialize (Hb s1); lia).
      change (snd (ret data s1)) with s1. lia. }
    destruct ((status =? 401) || (status =? 403));
      [change (snd (ret JNull s1)) with s1; lia|].
    specialize (Hb s1); lia.
Qed.

(** What [fetch_with_retry] hands back is [None] or a payload that passed
    the structure test, so [if not data] tests for [None]. *)
Lemma expected_structure_truthy (data : json) :
  expected_structure data = Ok true -> truthy data = true.
Proof.
  unfold expected_structure.
  destruct data as [| | |t|l|kvs]; cbn; try discriminate.
  - destruct t; [|reflexivity]. cbn. discriminate.
  - destruct l; [|reflexivity]. cbn. discriminate.
  - destruct kvs; [|reflexivity]. cbn. discriminate.
Qed.

End ClientFacts.

(** C5, as the code has it. A 429 answer is followed by the ten-second
    cooldown and the call goes on with the attempts that were left after
    this one: the answer uses up an attempt.  If it was the last attempt
    the call fails for good, counting one failed request.  In all, a call
    sends at most [MAX_RETRIES] requests. *)
Theorem quota_response_consumes_attempt
    (env : Env) (req : Request) (s : Session) (attempt : Z) (later : list Z)
    (body : option json) :
  server env (trace s) req = Http 429 body ->
  let cooled := record (EvSleep 10000) (record (EvRequest req (Http 429 body)) s) in
  fetch_attempts env (attempt :: later) req s = fetch_attempts env later req cooled
  /\ (later = [] ->
      fetch_attempts env (attempt :: later) req s
      = (Done JNull, set_failed_requests (failed_requests s + 1) cooled))
  /\ (requests_sent (trace (snd (fetch_with_retry env req s)))
      <= requests_sent (trace s) + Z.to_nat MAX_RETRIES)%nat.
Proof.
  intros H cooled.
  assert (E : fetch_attempts env (attempt :: later) req s
              = fetch_attempts env later req cooled).
  { cbn [fetch_attempts]. unfold bind at 1. cbn [http_get]. rewrite H. reflexivity. }
  split; [exact E|]. split.
  - intros ->. rewrite E. reflexivity.
  - apply (fetch_attempts_bound env req attempts_range s).
Qed.

Lemma quota_response_consumes_attempt_witness :
  fetch_with_retry quota_env (Discover 2020 1) (init None None)
  = fetch_attempts quota_env [2; 3] (Discover 2020 1)
      (record (EvSleep 10000)
         (record (EvRequest (Discover 2020 1) (Http 429 None)) (init None None))).
Proof.
  exact (proj1 (quota_response_consumes_attempt quota_env (Discover 2020 1)
                  (init None None) 1 [2; 3] None eq_refl)).
Defined.

(** C5, counterexample. Three 429 answers and no other failure: the call
    returns [None] and counts a failed request. *)
Lemma quota_responses_alone_fail_the_call :
  let (o, s') := fetch_with_retry quota_env (Discover 2020 1) (init None None) in
  o = Done JNull
  /\ failed_requests s' = 1
  /\ rev (trace s')
     = [EvRequest (Discover 2020 1) (Http 429 None); EvSleep 10000;
        EvRequest (Discover 2020 1) (Http 429 None); EvSleep 10000;
        EvRequest (Discover 2020 1) (Http 429 None); EvSleep 10000].
Proof. vm_compute. repeat split. Qed.

(** C3, as the code has it. A 401 or 403 answer ends the call at once:
    one request, no sleep, no further attempt, the failure counter
    untouched, and the caller gets [None], the value a call that ran out
    of attempts returns as well.  When the answer is to the start-up
    probe, [run] returns with both files as they were. *)
Theorem auth_failure_is_immediate (env : Env) (status : Z) (body : option json) :
  status = 401 \/ status = 403 ->
  (forall req s attempt later,
      server env (trace s) req = Http status body ->
      fetch_attempts env (attempt :: later) req s
      = (Done JNull, record (EvRequest req (Http status body)) s))
  /\ (forall req s, fst (fetch_attempts env [] req s) = Done JNull)
  /\ (forall pause fuel api_key csv checkpoint,
        (api_key =? "YOUR_API_KEY_HERE")%string = false ->
        server env [] ApiKeyTest = Http status body ->
        exists s',
          run env pause fuel api_key (init csv checkpoint) = (Done KeyTestFailed, s')
          /\ output_file s' = output_file (init csv checkpoint)
          /\ progress_file s' = checkpoint
          /\ trace s' = [EvRequest ApiKeyTest (Http status body)]).
Proof.
  intros Hauth.
  assert (Hfetch : forall req s attempt later,
      server env (trace s) req = Http status body ->
      fetch_attempts env (attempt :: later) req s
      = (Done JNull, record (EvRequest req (Http status body)) s)).
  { intros req s attempt later H.
    cbn [fetch_attempts]. unfold bind at 1. cbn [http_get]. rewrite H.
    destruct Hauth as [-> | ->]; reflexivity. }
  split; [exact Hfetch|]. split; [reflexivity|].
  intros pause fuel api_key csv checkpoint Hkey Htest.
  unfold run. rewrite Hkey.
  unfold bind at 1. cbn [modify]. unfold bind at 1. cbn [modify].
  unfold bind at 1. unfold fetch_with_retry.
  change attempts_range with [1; 2; 3].
  rewrite Hfetch by exact Htest.
  cbn [truthy negb ret]. eexists. split; [reflexivity|]. repeat split.
Qed.

Lemma auth_failure_is_immediate_witness :
  exists s',
    main (attended (fun _ => Http 401 None) "1") 5 "key"
         (Some resume_rows) (Some (Document resume_checkpoint))
    = (Done KeyTestFailed, s')
    /\ output_file s' = output_file (init (Some resume_rows)
                                          (Some (Document resume_checkpoint)))
    /\ progress_file s' = Some (Document resume_checkpoint)
    /\ trace s' = [EvRequest ApiKeyTest (Http 401 None)].
Proof.
  exact (proj2 (proj2 (auth_failure_is_immediate
                  (attended (fun _ => Http 401 None) "1") 401 None
                  (or_introl eq_refl)))
               PAUSE_ON_ERROR 5%nat "key" (Some resume_rows)
               (Some (Document resume_checkpoint)) eq_refl eq_refl).
Defined.

(** C3, counterexample. The pages of 2020 are answered 401; the operator
    is prompted, answers "1", and the session goes on: it writes the
    records of the later years and removes the checkpoint at the end. *)
Lemma auth_failure_mid_run_goes_on :
  let (o, s') := main (attended (refusing_server 401) "1") 50 "key" None
                      (Some (Document old_checkpoint)) in
  o = Done Completed
  /\ statuses (trace s')
     = [200; 401; 200; 200; 200; 200; 200; 200; 200; 200; 200; 200]
  /\ prompts (trace s') = [(2020, 1, FailedToFetchPage)]
  /\ rows_written (trace s')
     = [JNum 202101; JNum 202201; JNum 202301; JNum 202401; JNum 202501]
  /\ In EvRemoveProgress (trace s')
  /\ progress_file s' = None.
Proof. vm_compute. repeat split. tauto. Qed.

(* ===================================================================== *)
(** ** The driver: when the checkpoint is removed *)
(* ===================================================================== *)

Section KeepsCheckpoint.
Variable env : Env.
Variable pause : bool.
Variable had : bool.

Lemma keeps_record (e : Event) (s : Session) :
  e <> EvRemoveProgress -> keeps_checkpoint had s -> keeps_checkpoint had (record e s).
Proof.
  intros He [H1 H2]. split; [exact H1|]. cbn. intros [E|E]; [congruence|auto].
Qed.

Lemma keeps_sleep (ms : Z) : preserves (keeps_checkpoint had) (sleep ms).
Proof. prim. inversion H; subst. apply keeps_record; [discriminate|auto]. Qed.

Lemma keeps_failed :
  preserves (keeps_checkpoint had)
    (modify (fun s => set_failed_requests (failed_requests s + 1) s)).
Proof. prim. inversion H; subst. exact Hs. Qed.

Lemma keeps_http_get (req : Request) :
  preserves (keeps_checkpoint had) (http_get env req).
Proof. prim. inversion H; subst. apply keeps_record; [discriminate|auto]. Qed.

Lemma keeps_input : preserves (keeps_checkpoint had) (input env).
Proof. prim. inversion H; subst. apply keeps_record; [discriminate|auto]. Qed.

Lemma keeps_prompt (y p : Z) (w : PromptReason) :
  preserves (keeps_checkpoint had) (modify (record (EvPrompt y p w))).
Proof. prim. inversion H; subst. apply keeps_record; [discriminate|auto]. Qed.

(** Saving writes or leaves the file; it never removes it. *)
Lemma keeps_save (y p : Z) : preserves (keeps_checkpoint had) (save_progress env y p).
Proof.
  prim. destruct Hs as [H1 H2].
  destruct (disk env (trace s)); inversion H; subst; split; cbn;
    try discriminate; try exact H1;
    intros [E|E]; try discriminate; auto.
Qed.

Lemma keeps_write (v : json) (row : MovieData) :
  preserves (keeps_checkpoint had) (write_row v row).
Proof.
  prim. inversion H; subst. destruct Hs as [H1 H2].
  split; [exact H1|]. cbn. intros [E|E]; [discriminate|auto].
Qed.

Lemma keeps_fetch (req : Request) :
  preserves (keeps_checkpoint had) (fetch_with_retry env req).
Proof.
  apply preserves_fetch_attempts;
    auto using keeps_sleep, keeps_failed, keeps_http_get.
Qed.

Lemma keeps_open_output : preserves (keeps_checkpoint had) open_output.
Proof.
  prim. destruct (output_file s); inversion H; subst; [exact Hs|].
  destruct Hs as [H1 H2]. split; [exact H1|].
  cbn. intros [E|E]; [discriminate|auto].
Qed.

Lemma keeps_year_loop (fuel : nat) (years : list Z) :
  preserves (keeps_checkpoint had) (year_loop env pause fuel years).
Proof.
  apply preserves_year_loop;
    auto using keeps_sleep, keeps_failed, keeps_http_get, keeps_save,
               keeps_input, keeps_prompt, keeps_write.
Qed.

(** [run] either reaches the end of the year loop and leaves no
    checkpoint, or ends otherwise and has removed nothing. *)
Lemma run_clears_or_keeps (fuel : nat) (api_key : string) (s0 : Session)
    (o : Outcome RunEnd) (s' : Session) :
  keeps_checkpoint had s0 ->
  run env pause fuel api_key s0 = (o, s') ->
  (o = Done Completed /\ progress_file s' = None)
  \/ (o <> Done Completed /\ keeps_checkpoint had s').
Proof.
  intros K0 H. unfold run in H.
  destruct (api_key =? "YOUR_API_KEY_HERE")%string.
  { inversion H; subst. right. split; [discriminate|exact K0]. }
  unfold bind at 1 in H. cbn [modify] in H.
  unfold bind at 1 in H. cbn [modify] in H.
  match type of H with
  | bind _ _ ?s = _ => assert (K1 : keeps_checkpoint had s) by exact K0
  end.
  apply bind_inv in H as [(t & s3 & E3 & H) | [(e & E3 & ->) | [E3 ->]]].
  2,3: right; split; [discriminate | eapply keeps_fetch; eauto].
  assert (K3 : keeps_checkpoint had s3) by (eapply keeps_fetch; eauto).
  destruct (negb (truthy t)).
  { inversion H; subst. right. split; [discriminate|exact K3]. }
  apply bind_inv in H as [(u & s4 & E4 & H) | [(e & E4 & ->) | [E4 ->]]].
  2,3: right; split; [discriminate | eapply keeps_open_output; eauto].
  assert (K4 : keeps_checkpoint had s4) by (eapply keeps_open_output; eauto).
  apply bind_inv in H as [(x & s5 & E5 & H) | [(e & E5 & ->) | [E5 ->]]].
  2,3: right; split; [discriminate | eapply keeps_year_loop; eauto].
  assert (K5 : keeps_checkpoint had s5) by (eapply keeps_year_loop; eauto).
  destruct x.
  - left. unfold bind, clear_progress, ret in H.
    destruct (progress_file s5) eqn:Ep; inversion H; subst; auto.
  - inversion H; subst. right. split; [discriminate|exact K5].
Qed.

End KeepsCheckpoint.

(** C4, as the code has it. The checkpoint is gone when [run] reaches the
    end of the year loop, however each year ended; when [run] ends any
    other way (placeholder key, failed probe, operator stop, uncaught
    exception, loop bound) nothing was removed and a checkpoint that was
    there at start-up is still there. *)
Theorem checkpoint_cleared_iff_loop_finished
    (env : Env) (pause : bool) (fuel : nat) (api_key : string)
    (csv : option (list IdCell)) (checkpoint : option FileContent) :
  let (o, s') := run env pause fuel api_key (init csv checkpoint) in
  (o = Done Completed -> progress_file s' = None)
  /\ (o <> Done Completed ->
      ~ In EvRemoveProgress (trace s')
      /\ (checkpoint <> None -> progress_file s' <> None)).
Proof.
  set (had := match checkpoint with Some _ => true | None => false end).
  assert (K0 : keeps_checkpoint had (init csv checkpoint)).
  { split; [|cbn; tauto]. subst had. cbn. destruct checkpoint; congruence. }
  destruct (run env pause fuel api_key (init csv checkpoint)) as [o s'] eqn:E.
  destruct (run_clears_or_keeps env pause had fuel api_key _ o s' K0 E)
    as [[-> Hp] | [Hne [Hk1 Hk2]]].
  - split; [auto | congruence].
  - split; [congruence|]. intros _. split; [exact Hk2|].
    intros Hc. apply Hk1. subst had. destruct checkpoint; congruence.
Qed.

(** C4, counterexample. Every page of 2020 fails; the year is abandoned,
    by the operator's "1" or by the unattended policy; the run completes
    and removes the checkpoint. *)
Lemma abandoned_year_still_clears_checkpoint :
  (let (o, s') := main (attended (refusing_server 500) "1") 50 "key" None
                       (Some (Document old_checkpoint)) in
   o = Done Completed
   /\ pages_fetched 2020 (trace s') = [1; 1; 1]
   /\ prompts (trace s') = [(2020, 1, FailedToFetchPage)]
   /\ In (EvInput (Entered "1")) (trace s')
   /\ In EvRemoveProgress (trace s')
   /\ progress_file s' = None)
  /\ (let (o, s') := run (attended (refusing_server 500) "1") false 50 "key"
                         (init None (Some (Document old_checkpoint))) in
      o = Done Completed
      /\ pages_fetched 2020 (trace s') = [1; 1; 1]
      /\ prompts (trace s') = []
      /\ In EvRemoveProgress (trace s')
      /\ progress_file s' = None).
Proof. vm_compute. repeat split; tauto. Qed.

(* ===================================================================== *)
(** ** The driver: the deduplication index *)
(* ===================================================================== *)

Section Dedup.
Variable env : Env.
Variable pause : bool.
Variable seeded : pyset.

Lemma dedup_record (e : Event) (s : Session) :
  unseen seeded e -> dedup_inv seeded s -> dedup_inv seeded (record e s).
Proof. intros He [H1 H2]. split; [exact H1|]. cbn. constructor; assumption. Qed.

Ltac by_record :=
  prim; inversion H; subst; apply dedup_record; [exact I | assumption].














End Dedup.

Section Seeding.

Lemma scan_ids_all (rows : list IdCell) :
  ~ In IdJunk rows ->
  exists ids, scan_ids rows = Ok ids
              /\ forall z, In (IdInt z) rows -> In (JNum z) ids.
Proof.
  induction rows as [|c rows IH]; intros Hj.
  - exists []. split; [reflexivity|]. intros z [].
  - destruct IH as (ids & E & Hin); [intros H; apply Hj; right; exact H|].
    destruct c as [|z0|]; cbn [scan_ids].
    + exists ids. split; [exact E|]. intros z [H|H]; [discriminate|auto].
    + rewrite E. exists (JNum z0 :: ids). split; [reflexivity|].
      intros z [H|H]; [inversion H; left; reflexivity | right; auto].
    + exfalso. apply Hj. left. reflexivity.
Qed.




End Seeding.

(* ===================================================================== *)
(** ** The driver: empty pages and the operator *)
(* ===================================================================== *)

Section Extends.
Variable env : Env.
Variable pause : bool.
Variable t : list Event.

Lemma extends_record (e : Event) (s : Session) :
  extends t s -> extends t (record e s).
Proof. intros [later E]. exists (e :: later). cbn. rewrite E. reflexivity. Qed.

Ltac by_record :=
  prim; inversion H; subst; repeat apply extends_record; assumption.

Lemma extends_sleep (ms : Z) : preserves (extends t) (sleep ms).
Proof. by_record. Qed.

Lemma extends_failed :
  preserves (extends t)
    (modify (fun s => set_failed_requests (failed_requests s + 1) s)).
Proof. prim. inversion H; subst. exact Hs. Qed.

Lemma extends_http_get (req : Request) : preserves (extends t) (http_get env req).
Proof. by_record. Qed.

Lemma extends_input : preserves (extends t) (input env).
Proof. by_record. Qed.

Lemma extends_prompt (y p : Z) (w : PromptReason) :
  preserves (extends t) (modify (record (EvPrompt y p w))).
Proof. by_record. Qed.

Lemma extends_save (y p : Z) : preserves (extends t) (save_progress env y p).
Proof.
  prim. destruct (disk env (trace s)); inversion H; subst;
    apply (extends_record _ s); assumption.
Qed.

Lemma extends_write (v : json) (row : MovieData) :
  preserves (extends t) (write_row v row).
Proof. prim. inversion H; subst. apply (extends_record _ s). assumption. Qed.

Lemma extends_page_loop (fuel : nat) (year page total empties : Z) :
  preserves (extends t) (page_loop env pause fuel year page total empties).
Proof.
  apply preserves_page_loop;
    auto using extends_sleep, extends_failed, extends_http_get, extends_save,
               extends_input, extends_prompt, extends_write.
Qed.

End Extends.

Section EmptyPages.
Variable env : Env.

Lemma turn_page_run {A} (year page : Z) (k : M A) (s : Session) :
  (save_progress env year (page + 1) ;; sleep 1000 ;; k) s
  = k (turn_page env year page s).
Proof.
  unfold turn_page, bind, save_progress, sleep, modify.
  destruct (disk env (trace s)); reflexivity.
Qed.

Ltac run_empty_page Hpage Hle :=
  destruct Hpage as (data & reported & results & Hfetch & Hdata & Hrep & Hmin
                     & Hres & Hnone);
  cbn [page_loop];
  rewrite (proj2 (Z.leb_le _ _) Hle);
  rewrite (bind_run _ _ _ _ _ Hfetch);
  rewrite Hdata; cbn [negb];
  rewrite Hrep, bind_lift_ok, Hmin, bind_lift_ok, Hres, bind_lift_ok;
  rewrite Hnone; cbn [negb]; cbv zeta.

(** Below the threshold an empty page only moves the loop on. *)
Lemma empty_page_continues (pause : bool) (fuel : nat)
    (year page total empties : Z) (s s1 : Session) (total' : Z) :
  page <= total ->
  empty_page env year page s total' s1 ->
  empties + 1 < 3 ->
  page_loop env pause (S fuel) year page total empties s
  = page_loop env pause fuel year (page + 1) total' (empties + 1)
      (turn_page env year page s1).
Proof.
  intros Hle Hpage Hlow. run_empty_page Hpage Hle.
  rewrite Z.geb_leb.
  replace (3 <=? empties + 1) with false by (symmetry; apply Z.leb_gt; lia).
  cbn [andb]. apply turn_page_run.
Qed.

(** At the threshold the operator is asked. *)
Lemma empty_page_escalates (fuel : nat)
    (year page total empties : Z) (s s1 : Session) (total' : Z) :
  page <= total ->
  empty_page env year page s total' s1 ->
  3 <= empties + 1 ->
  page_loop env PAUSE_ON_ERROR (S fuel) year page total empties s
  = (choice <- pause_on_error_prompt env fuel year page ConsecutiveEmptyPages ;;
     after_empty_prompt env PAUSE_ON_ERROR fuel year page total' (empties + 1) choice) s1.
Proof.
  intros Hle Hpage Hhigh. run_empty_page Hpage Hle.
  rewrite Z.geb_leb.
  replace (3 <=? empties + 1) with true by (symmetry; apply Z.leb_le; lia).
  reflexivity.
Qed.

(** The answer "2" sends the loop back to the same page with the counter
    at zero. *)
Lemma retry_resets_counter (pause : bool) (fuel : nat)
    (year page total empties : Z) (why : PromptReason) (s : Session) :
  let prompted := record (EvPrompt year page why) s in
  console env (trace prompted) = Entered "2" ->
  (choice <- pause_on_error_prompt env (S fuel) year page why ;;
   after_empty_prompt env pause (S fuel) year page total empties choice) s
  = page_loop env pause (S fuel) year page total 0
      (record (EvInput (Entered "2")) prompted).
Proof.
  intros prompted Hin.
  unfold pause_on_error_prompt, bind, modify. cbn [read_choice].
  unfold bind, input. fold prompted. rewrite Hin. reflexivity.
Qed.

Lemma prompt_then {A} (fuel : nat) (year page : Z) (why : PromptReason)
    (k : string -> M A) (s : Session) :
  (choice <- pause_on_error_prompt env fuel year page why ;; k choice) s
  = (choice <- read_choice env fuel ;; k choice) (record (EvPrompt year page why) s).
Proof. reflexivity. Qed.

Lemma preserves_after_empty_prompt (t : list Event) (pause : bool) (fuel : nat)
    (year page total empties : Z) :
  preserves (extends t)
    (choice <- read_choice env fuel ;;
     after_empty_prompt env pause fuel year page total empties choice).
Proof.
  pose proof (extends_page_loop env pause t) as Hp.
  pose proof (extends_save env t) as Hs.
  pose proof (extends_sleep t) as Hz.
  assert (Hr : preserves (extends t) (read_choice env fuel)).
  { apply preserves_read_choice; auto using extends_input. }
  unfold after_empty_prompt. preserve.
Qed.

(** A turn on an empty page that goes on to the next page, with the
    counter one higher. *)
Lemma empty_turn_run (fuel : nat) (year page total empties : Z)
    (s s' : Session) (total' : Z) :
  page <= total ->
  empty_turn env fuel year page empties s total' s' ->
  page_loop env PAUSE_ON_ERROR (S fuel) year page total empties s
  = page_loop env PAUSE_ON_ERROR fuel year (page + 1) total' (empties + 1) s'.
Proof.
  intros Hle (s1 & Hpage & [[Hlow ->] | (Hhigh & s2 & Hprompt & ->)]).
  - apply empty_page_continues; assumption.
  - rewrite (empty_page_escalates _ _ _ _ _ _ _ _ Hle Hpage Hhigh).
    rewrite (bind_run _ _ _ _ _ Hprompt).
    unfold after_empty_prompt. cbn [String.eqb Ascii.eqb Bool.eqb].
    apply turn_page_run.
Qed.

End EmptyPages.

(** C6. Whatever the counter of consecutive empty pages is when the loop
    comes to a page, as long as it is not negative: if that page and the
    next come back empty and the loop goes on after each (silently while
    the counter is below three, or because the operator answered an
    earlier prompt with "4"), and the page after them comes back empty
    too, the loop shows the operator prompt for that third page right
    after its fetch.  If the operator then answers "2", the loop fetches
    that same page again with the counter back at zero. *)
Theorem three_empty_pages_prompt
    (env : Env) (fuel : nat) (year page total empties : Z)
    (s0 s1 s2 s3 : Session) (total1 total2 total3 : Z) :
  0 <= empties ->
  page <= total ->
  empty_turn env (3 + fuel) year page empties s0 total1 s1 ->
  page + 1 <= total1 ->
  empty_turn env (2 + fuel) year (page + 1) (empties + 1) s1 total2 s2 ->
  page + 2 <= total2 ->
  empty_page env year (page + 2) s2 total3 s3 ->
  let prompted := record (EvPrompt year (page + 2) ConsecutiveEmptyPages) s3 in
  let looped := page_loop env PAUSE_ON_ERROR (4 + fuel) year page total empties s0 in
  extends (trace prompted) (snd looped)
  /\ (console env (trace prompted) = Entered "2" ->
      looped = page_loop env PAUSE_ON_ERROR (S fuel) year (page + 2) total3 0
                 (record (EvInput (Entered "2")) prompted)).
Proof.
  intros Hc Hle0 Hp1 Hle1 Hp2 Hle2 Hp3 prompted looped.
  assert (E : looped
    = (choice <- pause_on_error_prompt env (S fuel) year (page + 2)
                   ConsecutiveEmptyPages ;;
       after_empty_prompt env PAUSE_ON_ERROR (S fuel) year (page + 2) total3
         (empties + 1 + 1 + 1) choice) s3).
  { subst looped. change (4 + fuel)%nat with (S (3 + fuel)).
    rewrite (empty_turn_run env _ _ _ _ _ _ _ _ Hle0 Hp1).
    change (3 + fuel)%nat with (S (2 + fuel)).
    rewrite (empty_turn_run env _ _ _ _ _ _ _ _ Hle1 Hp2).
    replace (page + 1 + 1) with (page + 2) by lia.
    change (2 + fuel)%nat with (S (S fuel)).
    rewrite (empty_page_escalates env _ _ _ _ _ _ _ _ Hle2 Hp3) by lia.
    reflexivity. }
  split.
  - rewrite E, prompt_then. fold prompted.
    destruct ((choice <- read_choice env (S fuel) ;;
               after_empty_prompt env PAUSE_ON_ERROR (S fuel) year (page + 2)
                 total3 (empties + 1 + 1 + 1) choice) prompted) as [o s'] eqn:Ek.
    cbn [snd].
    apply (preserves_after_empty_prompt env (trace prompted) _ _ _ _ _ _ _ _ _ Ek).
    exists []. reflexivity.
  - intros Hin. rewrite E. apply retry_resets_counter. exact Hin.
Qed.

Lemma three_empty_pages_prompt_witness :
  let s0 := init None None in
  let f1 := snd (fetch_movies_from_year patient 2020 1 s0) in
  let s1 := turn_page patient 2020 1 f1 in
  let f2 := snd (fetch_movies_from_year patient 2020 2 s1) in
  let a2 := snd (pause_on_error_prompt patient 2 2020 2 ConsecutiveEmptyPages f2) in
  let s2 := turn_page patient 2020 2 a2 in
  let s3 := snd (fetch_movies_from_year patient 2020 3 s2) in
  let prompted := record (EvPrompt 2020 3 ConsecutiveEmptyPages) s3 in
  let looped := page_loop patient PAUSE_ON_ERROR 4 2020 1 1 1 s0 in
  prompts (trace prompted)
  = [(2020, 2, ConsecutiveEmptyPages); (2020, 3, ConsecutiveEmptyPages)]
  /\ extends (trace prompted) (snd looped)
  /\ looped = page_loop patient PAUSE_ON_ERROR 1 2020 3 10 0
                (record (EvInput (Entered "2")) prompted).
Proof.
  intros s0 f1 s1 f2 a2 s2 s3 prompted looped.
  assert (P1 : empty_page patient 2020 1 s0 10 f1)
    by (do 3 eexists; repeat split; reflexivity).
  assert (P2 : empty_page patient 2020 (1 + 1) s1 10 f2)
    by (do 3 eexists; repeat split; reflexivity).
  assert (P3 : empty_page patient 2020 (1 + 2) s2 10 s3)
    by (do 3 eexists; repeat split; reflexivity).
  assert (T1 : empty_turn patient (3 + 0) 2020 1 1 s0 10 s1).
  { exists f1. split; [exact P1|]. left. split; [lia | reflexivity]. }
  assert (T2 : empty_turn patient (2 + 0) 2020 (1 + 1) (1 + 1) s1 10 s2).
  { exists f2. split; [exact P2|]. right. split; [lia|].
    exists a2. split; reflexivity. }
  destruct (three_empty_pages_prompt patient 0 2020 1 1 1 s0 s1 s2 s3 10 10 10
              ltac:(lia) ltac:(lia) T1 ltac:(lia) T2 ltac:(lia) P3)
    as [Hext Hretry].
  split; [reflexivity|]. split; [exact Hext | exact (Hretry eq_refl)].
Defined.

(** After the answer "2" the count starts again: the prompt for page 3 is
    followed by a second one only at page 5, three empty fetches later. *)
Lemma retry_restarts_the_count :
  let (o, s') := page_loop barren PAUSE_ON_ERROR 8 2020 1 1 0 (init None None) in
  o = Done Returned
  /\ prompts (trace s')
     = [(2020, 3, ConsecutiveEmptyPages); (2020, 5, ConsecutiveEmptyPages)]
  /\ pages_fetched 2020 (trace s') = [1; 2; 3; 3; 4; 5].
Proof. vm_compute. repeat split. Qed.

(** A year of ten empty pages with an operator who always answers "4":
    the prompt is shown for every page from the third on. *)
Lemma every_empty_page_from_the_third_prompts :
  prompts (trace (snd (page_loop (attended barren_server "4") PAUSE_ON_ERROR 12
                         2020 1 1 0 (init None None))))
  = map (fun p => (2020, p, ConsecutiveEmptyPages)) [3; 4; 5; 6; 7; 8; 9; 10].
Proof. vm_compute. reflexivity. Qed.

(* ===================================================================== *)
(** ** The driver: resuming from a checkpoint *)
(* ===================================================================== *)

Section Resume.
Variable env : Env.
Variable pause : bool.

Lemma bind_gets {A B} (f : Session -> A) (k : A -> M B) (s : Session) :
  bind (gets f) k s = k (f s) s.
Proof. reflexivity. Qed.

Lemma own_year_is_not_skipped (year : Z) (s : Session) :
  field "last_year" (progress s) = Some (JNum year) ->
  should_skip_year year s = (Done false, s).
Proof.
  intros Hy. destruct (progress s) as [| | | | |kvs] eqn:Ep; try discriminate.
  cbn [field] in Hy. unfold should_skip_year.
  rewrite bind_gets, Ep. unfold dict_get. rewrite Hy, bind_lift_ok.
  unfold int_lt, as_int. rewrite Z.ltb_irrefl. reflexivity.
Qed.

Lemma own_year_starts_at_checkpoint (year : Z) (v : json) (s : Session) :
  field "last_year" (progress s) = Some (JNum year) ->
  field "last_page" (progress s) = Some v ->
  get_starting_page year s = (Done v, s).
Proof.
  intros Hy Hp. destruct (progress s) as [| | | | |kvs] eqn:Ep; try discriminate.
  cbn [field] in Hy, Hp. unfold get_starting_page.
  rewrite bind_gets, Ep. unfold dict_get. rewrite Hy, bind_lift_ok.
  unfold eq_int, as_int. rewrite Z.eqb_refl, Hp. reflexivity.
Qed.

(** With a checkpoint for this very year at a page beyond the first, the
    loop over the pages of the year does not run once: the initial page
    count of 1 (line 307) is already exceeded. *)
Lemma resume_skips_the_year (fuel : nat) (year page : Z) (later : list Z)
    (s : Session) :
  field "last_year" (progress s) = Some (JNum year) ->
  field "last_page" (progress s) = Some (JNum page) ->
  1 < page ->
  year_loop env pause (S fuel) (year :: later) s
  = year_loop env pause (S fuel) later s.
Proof.
  intros Hy Hp Hlt. cbn [year_loop].
  rewrite (bind_run _ _ _ _ _ (own_year_is_not_skipped year s Hy)).
  rewrite (bind_run _ _ _ _ _ (own_year_starts_at_checkpoint year _ s Hy Hp)).
  unfold gt_int, as_int. rewrite bind_lift_ok.
  cbn [page_loop].
  replace (page <=? 1) with false by (symmetry; apply Z.leb_gt; lia).
  reflexivity.
Qed.

End Resume.

(** C1, on the code. The run below restarts from a checkpoint for 2022 at
    page 5 against an upstream with six pages a year.  It asks for no page
    of 2022 at all, goes through 2023 to 2025 in full, reports completion
    and removes the checkpoint: pages 5 and 6 of 2022 are never fetched. *)
Theorem resumed_year_is_not_fetched :
  let (o, s') := main (catalog 6) 100 "key" (Some resume_rows)
                      (Some (Document resume_checkpoint)) in
  o = Done Completed
  /\ pages_fetched 2020 (trace s') = []
  /\ pages_fetched 2021 (trace s') = []
  /\ pages_fetched 2022 (trace s') = []
  /\ pages_fetched 2023 (trace s') = [1; 2; 3; 4; 5; 6]
  /\ pages_fetched 2024 (trace s') = [1; 2; 3; 4; 5; 6]
  /\ pages_fetched 2025 (trace s') = [1; 2; 3; 4; 5; 6]
  /\ progress_file s' = None.
Proof. vm_compute. repeat split. Qed.

(* ===================================================================== *)
(** ** More on the fetch client *)
(* ===================================================================== *)

Section FetchMore.
Variable env : Env.

Lemma backoff_run (attempt : Z) (s : Session) :
  backoff attempt s = (Done tt, s)
  \/ (attempt < MAX_RETRIES /\ backoff attempt s = (Done tt, record (EvSleep 2000) s)).
Proof.
  unfold backoff. destruct (Z.ltb_spec attempt MAX_RETRIES); [right|left]; auto.
Qed.

Lemma fetch_attempts_unfold (attempt : Z) (later : list Z) (req : Request)
    (s : Session) :
  fetch_attempts env (attempt :: later) req s
  = match server env (trace s) req with
    | Http status body =>
        if status =? 429 then
          sleep 10000 ;;
          fetch_attempts env later req
        else if status =? 200 then
          match body with
          | Some data =>
              match expected_structure data with
              | Ok true => ret data
              | Ok false | Raise _ =>
                  backoff attempt ;;
                  fetch_attempts env later req
              end
          | None =>
              backoff attempt ;;
              fetch_attempts env later req
          end
        else if (status =? 401) || (status =? 403) then
          ret JNull
        else
          backoff attempt ;;
          fetch_attempts env later req
    | Timeout | RequestException | OtherException =>
        backoff attempt ;;
        fetch_attempts env later req
    end (record (EvRequest req (server env (trace s) req)) s).
Proof. reflexivity. Qed.

(** The possible ends of one attempt. *)
Lemma fetch_attempts_step (attempt : Z) (later : list Z) (req : Request)
    (s : Session) :
  let resp := server env (trace s) req in
  let s1 := record (EvRequest req resp) s in
  (exists data, resp = Http 200 (Some data)
                /\ expected_structure data = Ok true
                /\ fetch_attempts env (attempt :: later) req s = (Done data, s1))
  \/ (exists body, (resp = Http 401 body \/ resp = Http 403 body)
                   /\ fetch_attempts env (attempt :: later) req s = (Done JNull, s1))
  \/ (exists body, resp = Http 429 body
                   /\ fetch_attempts env (attempt :: later) req s
                      = fetch_attempts env later req (record (EvSleep 10000) s1))
  \/ (retryable resp = true
      /\ fetch_attempts env (attempt :: later) req s
         = fetch_attempts env later req (snd (backoff attempt s1))).
Proof.
  intros resp s1.
  assert (Hb : forall k : M json,
             (backoff attempt ;; k) s1 = k (snd (backoff attempt s1))).
  { intros k. unfold bind.
    destruct (backoff_run attempt s1) as [E | [_ E]]; rewrite E; reflexivity. }
  rewrite fetch_attempts_unfold. fold resp. fold s1. unfold retryable.
  clearbody resp. destruct resp as [| | |status body].
  1-3: right; right; right; split; [reflexivity | apply Hb].
  destruct (Z.eqb_spec status 429) as [-> | H429].
  { right; right; left. exists body. split; reflexivity. }
  destruct (Z.eqb_spec status 200) as [-> | H200].
  { destruct body as [data|].
    - destruct (expected_structure data) as [[|]|e] eqn:E.
      + left. exists data. repeat split; assumption.
      + right; right; right. split; [reflexivity | apply Hb].
      + right; right; right. split; [reflexivity | apply Hb].
    - right; right; right. split; [reflexivity | apply Hb]. }
  destruct (Z.eqb_spec status 401) as [-> | H401].
  { right; left. exists body. split; [left|]; reflexivity. }
  destruct (Z.eqb_spec status 403) as [-> | H403].
  { right; left. exists body. split; [right|]; reflexivity. }
  right; right; right. split; [reflexivity | apply Hb].
Qed.

Lemma same_data_refl (s : Session) : same_data s s.
Proof. repeat split. Qed.

Lemma same_data_trans (s1 s2 s3 : Session) :
  same_data s1 s2 -> same_data s2 s3 -> same_data s1 s3.
Proof.
  unfold same_data. intros (A1 & A2 & A3 & A4 & A5) (B1 & B2 & B3 & B4 & B5).
  repeat split; congruence.
Qed.

Lemma same_data_backoff (attempt : Z) (s : Session) :
  same_data s (snd (backoff attempt s))
  /\ failed_requests (snd (backoff attempt s)) = failed_requests s
  /\ extends (trace s) (snd (backoff attempt s))
  /\ 0 <= slept (trace (snd (backoff attempt s))) - slept (trace s) <= 2000.
Proof.
  destruct (backoff_run attempt s) as [E | [_ E]]; rewrite E; cbn [snd].
  - split; [apply same_data_refl|]. split; [reflexivity|].
    split; [exists []; reflexivity | lia].
  - split; [repeat split|]. split; [reflexivity|].
    split; [exists [EvSleep 2000]; reflexivity |].
    change (slept (trace (record (EvSleep 2000) s))) with (2000 + slept (trace s)).
    lia.
Qed.

Lemma extends_trans (t : list Event) (s1 s2 : Session) :
  extends t s1 -> extends (trace s1) s2 -> extends t s2.
Proof.
  intros [l1 E1] [l2 E2]. exists (l2 ++ l1). rewrite E2, E1.
  apply app_assoc.
Qed.

(** Everything a call can do, whatever the upstream answers. *)
Lemma fetch_attempts_total (req : Request) (attempts : list Z) :
  forall s,
    exists data s',
      fetch_attempts env attempts req s = (Done data, s')
      /\ (data = JNull
          \/ (expected_structure data = Ok true /\ truthy data = true
              /\ exists t, server env t req = Http 200 (Some data)))
      /\ same_data s s'
      /\ (failed_requests s' = failed_requests s
          \/ (data = JNull /\ failed_requests s' = failed_requests s + 1))
      /\ extends (trace s) s'
      /\ 0 <= slept (trace s') - slept (trace s)
           <= 10000 * Z.of_nat (List.length attempts).
Proof.
  induction attempts as [|attempt later IH]; intros s.
  - exists JNull, (set_failed_requests (failed_requests s + 1) s).
    split; [reflexivity|]. split; [left; reflexivity|].
    split; [repeat split|]. split; [right; split; reflexivity|].
    split; [exists []; reflexivity |].
    change (slept (trace (set_failed_requests (failed_requests s + 1) s)))
      with (slept (trace s)).
    cbn [List.length]. lia.
  - set (resp := server env (trace s) req).
    set (s1 := record (EvRequest req resp) s).
    assert (H1 : same_data s s1) by (repeat split).
    assert (X1 : extends (trace s) s1) by (exists [EvRequest req resp]; reflexivity).
    assert (Z1 : slept (trace s1) = slept (trace s)) by reflexivity.
    assert (Hlen : Z.of_nat (List.length (attempt :: later))
                   = Z.of_nat (List.length later) + 1)
      by (cbn [List.length]; lia).
    rewrite Hlen.
    destruct (fetch_attempts_step attempt later req s)
      as [(data & Hresp & Hok & E) | [(body & _ & E) | [(body & _ & E) | [_ E]]]];
      fold resp in E; fold s1 in E; rewrite E.
    + exists data, s1. split; [reflexivity|].
      split; [right; split; [exact Hok|];
              split; [apply expected_structure_truthy; exact Hok|];
              exists (trace s); exact Hresp|].
      split; [exact H1|]. split; [left; reflexivity|].
      split; [exact X1 | lia].
    + exists JNull, s1. split; [reflexivity|]. split; [left; reflexivity|].
      split; [exact H1|]. split; [left; reflexivity|].
      split; [exact X1 | lia].
    + destruct (IH (record (EvSleep 10000) s1))
        as (data & s' & E' & Hd & Hf & Hc & Hx & Hz).
      exists data, s'. split; [exact E'|]. split; [exact Hd|].
      split; [eapply same_data_trans; [exact H1|exact Hf]|].
      split; [exact Hc|].
      split.
      * eapply extends_trans; [|exact Hx].
        exists [EvSleep 10000; EvRequest req resp]. reflexivity.
      * change (slept (trace (record (EvSleep 10000) s1)))
          with (10000 + slept (trace s1)) in Hz. lia.
    + destruct (same_data_backoff attempt s1) as (Bf & Bc & Bx & Bz).
      destruct (IH (snd (backoff attempt s1)))
        as (data & s' & E' & Hd & Hf & Hc & Hx & Hz).
      exists data, s'. split; [exact E'|]. split; [exact Hd|].
      split; [eapply same_data_trans; [exact H1|];
              eapply same_data_trans; [exact Bf|exact Hf]|].
      split; [rewrite Bc in Hc; exact Hc|].
      split.
      * eapply extends_trans; [|exact Hx]. eapply extends_trans; [exact X1|exact Bx].
      * lia.
Qed.

(** A payload that is returned is the body of the answer the call ended
    on. *)
Lemma fetch_attempts_answer (req : Request) (attempts : list Z) :
  forall s data s',
    fetch_attempts env attempts req s = (Done data, s') ->
    data <> JNull ->
    exists before, trace s' = EvRequest req (Http 200 (Some data)) :: before.
Proof.
  induction attempts as [|attempt later IH]; intros s data s' H Hd.
  - inversion H; subst. contradiction.
  - pose proof (fetch_attempts_step attempt later req s) as St. cbv zeta in St.
    destruct St as [(d & Er & _ & E) | [(body & _ & E) | [(body & _ & E) | [_ E]]]];
      rewrite E in H.
    + inversion H; subst. rewrite Er. eexists. reflexivity.
    + inversion H; subst. contradiction.
    + eapply IH; eauto.
    + eapply IH; eauto.
Qed.

End FetchMore.

(** X1. [fetch_with_retry] always returns: no exception of the request or
    of the decoding escapes it.  What it returns is [None], or the decoded
    body of the 200 answer the call ended on, for which the test of line
    102, ['results' in data or 'id' in data], held.  That test is a
    membership test: a [dict] with one of the two keys passes it, and so
    does a list or a string that contains one of the two words.  A
    returned body is never falsy, so the callers' [if not data] tests
    exactly for [None]. *)
Theorem fetch_returns_none_or_payload (env : Env) (req : Request) (s : Session) :
  exists data s',
    fetch_with_retry env req s = (Done data, s')
    /\ (data = JNull
        \/ (expected_structure data = Ok true
            /\ exists before,
                 trace s' = EvRequest req (Http 200 (Some data)) :: before))
    /\ (truthy data = false <-> data = JNull).
Proof.
  destruct (fetch_attempts_total env req attempts_range s)
    as (data & s' & E & Hd & _).
  exists data, s'. split; [exact E|]. split.
  - destruct Hd as [H | (Hs & Ht & _)]; [left; exact H | right].
    split; [exact Hs|].
    apply (fetch_attempts_answer env req attempts_range s data s' E).
    intros ->. discriminate.
  - split.
    + intros Hf. destruct Hd as [H | (_ & H & _)]; [exact H | congruence].
    + intros ->. reflexivity.
Qed.

(** A body that is a list holding the word "results" passes the test of
    line 102 and is handed to the caller, although it is no [dict]. *)
Lemma list_body_is_returned :
  expected_structure (JArr [JStr "results"]) = Ok true
  /\ fst (fetch_with_retry list_body ApiKeyTest (init None None))
     = Done (JArr [JStr "results"]).
Proof. split; reflexivity. Qed.

(** X2. A call touches nothing of the session but the trace and the
    counter of failed requests: the index, the running total, the
    loaded checkpoint and both files are as before.  The counter goes up
    by at most one, and only when the call returns [None]. *)
Theorem fetch_leaves_data_alone (env : Env) (req : Request) (s : Session) :
  let out := fetch_with_retry env req s in
  same_data s (snd out)
  /\ extends (trace s) (snd out)
  /\ (failed_requests (snd out) = failed_requests s
      \/ (fst out = Done JNull
          /\ failed_requests (snd out) = failed_requests s + 1)).
Proof.
  destruct (fetch_attempts_total env req attempts_range s)
    as (data & s' & E & _ & Hf & Hc & Hx & _).
  unfold fetch_with_retry. rewrite E. cbn [fst snd].
  split; [exact Hf|]. split; [exact Hx|].
  destruct Hc as [H | [-> H]]; auto.
Qed.

(** X3. One call never sleeps more than thirty seconds in all (three
    cooldowns of ten seconds at worst). *)
Theorem fetch_sleeps_at_most_thirty_seconds
    (env : Env) (req : Request) (s : Session) :
  let s' := snd (fetch_with_retry env req s) in
  0 <= slept (trace s') - slept (trace s) <= 30000.
Proof.
  destruct (fetch_attempts_total env req attempts_range s)
    as (data & s' & E & _ & _ & _ & _ & Hz).
  unfold fetch_with_retry. rewrite E. cbn [snd].
  change (Z.of_nat (List.length attempts_range)) with 3 in Hz. lia.
Qed.

Section FetchSchedule.
Variable env : Env.

Lemma sleeps_app (new old : list Event) :
  sleeps (new ++ old) = sleeps old ++ sleeps new.
Proof. unfold sleeps. rewrite rev_app_distr, flat_map_app. reflexivity. Qed.

Lemma requests_sent_app (new old : list Event) :
  requests_sent (new ++ old) = (requests_sent new + requests_sent old)%nat.
Proof. unfold requests_sent. rewrite filter_app, length_app. reflexivity. Qed.

Lemma retryable_step (attempt : Z) (later : list Z) (req : Request) (s : Session) :
  retryable (server env (trace s) req) = true ->
  fetch_attempts env (attempt :: later) req s
  = fetch_attempts env later req
      (snd (backoff attempt (record (EvRequest req (server env (trace s) req)) s))).
Proof.
  intros Hr.
  destruct (fetch_attempts_step env attempt later req s)
    as [(data & E & Hok & _) | [(body & E & _) | [(body & E & _) | [_ E]]]].
  - rewrite E in Hr. unfold retryable in Hr. cbn in Hr. rewrite Hok in Hr.
    discriminate.
  - destruct E as [E|E]; rewrite E in Hr; discriminate.
  - rewrite E in Hr. discriminate.
  - exact E.
Qed.

End FetchSchedule.

(** X4. When every answer is one the client retries (an exception of the
    request, a body that does not decode or has neither key, a status
    other than 200, 429, 401 and 403), a call sends three requests, waits
    two seconds after the first and after the second but not after the
    third, returns [None] and counts one failed request. *)
Theorem retried_answers_exhaust_the_call
    (env : Env) (req : Request) (s : Session) :
  (forall t, retryable (server env t req) = true) ->
  exists r1 r2 r3 s',
    fetch_with_retry env req s = (Done JNull, s')
    /\ trace s' = [EvRequest req r3; EvSleep 2000; EvRequest req r2;
                   EvSleep 2000; EvRequest req r1] ++ trace s
    /\ sleeps (trace s') = sleeps (trace s) ++ [2000; 2000]
    /\ requests_sent (trace s') = (requests_sent (trace s) + 3)%nat
    /\ failed_requests s' = failed_requests s + 1
    /\ same_data s s'.
Proof.
  intros Hall. unfold fetch_with_retry. change attempts_range with [1; 2; 3].
  rewrite (retryable_step env 1 [2; 3] req s (Hall _)).
  set (r1 := server env (trace s) req).
  change (snd (backoff 1 (record (EvRequest req r1) s)))
    with (record (EvSleep 2000) (record (EvRequest req r1) s)).
  set (s1 := record (EvSleep 2000) (record (EvRequest req r1) s)).
  rewrite (retryable_step env 2 [3] req s1 (Hall _)).
  set (r2 := server env (trace s1) req).
  change (snd (backoff 2 (record (EvRequest req r2) s1)))
    with (record (EvSleep 2000) (record (EvRequest req r2) s1)).
  set (s2 := record (EvSleep 2000) (record (EvRequest req r2) s1)).
  rewrite (retryable_step env 3 [] req s2 (Hall _)).
  set (r3 := server env (trace s2) req).
  change (snd (backoff 3 (record (EvRequest req r3) s2)))
    with (record (EvRequest req r3) s2).
  exists r1, r2, r3. eexists. split; [reflexivity|].
  assert (Et : trace (set_failed_requests
                        (failed_requests (record (EvRequest req r3) s2) + 1)
                        (record (EvRequest req r3) s2))
               = [EvRequest req r3; EvSleep 2000; EvRequest req r2;
                  EvSleep 2000; EvRequest req r1] ++ trace s) by reflexivity.
  split; [exact Et|]. rewrite Et.
  split; [apply sleeps_app|].
  split; [rewrite requests_sent_app; cbn; lia|].
  split; [reflexivity | repeat split].
Qed.

Lemma retried_answers_exhaust_the_call_witness :
  exists r1 r2 r3 s',
    fetch_with_retry (attended (fun _ => Timeout) "1") ApiKeyTest (init None None)
    = (Done JNull, s')
    /\ trace s' = [EvRequest ApiKeyTest r3; EvSleep 2000; EvRequest ApiKeyTest r2;
                   EvSleep 2000; EvRequest ApiKeyTest r1] ++ []
    /\ sleeps (trace s') = [] ++ [2000; 2000]
    /\ requests_sent (trace s') = (0 + 3)%nat
    /\ failed_requests s' = 0 + 1
    /\ same_data (init None None) s'.
Proof.
  exact (retried_answers_exhaust_the_call (attended (fun _ => Timeout) "1")
           ApiKeyTest (init None None) (fun _ => eq_refl)).
Defined.

(* ===================================================================== *)
(** ** More on the record transformer *)
(* ===================================================================== *)

Section TransformerMore.

Ltac rbind_open H :=
  match type of H with
  | rbind ?r _ = Ok _ =>
      let E := fresh "E" in
      destruct r eqn:E; [cbn [rbind] in H | discriminate H]
  end.

Lemma dict_get_field (d : json) (key : string) (default v : json) :
  dict_get d key default = Ok v ->
  v = match field key d with Some x => x | None => default end.
Proof. destruct d; cbn; intros H; try discriminate. congruence. Qed.

Lemma field_truthy (d : json) (key : string) (v : json) :
  field key d = Some v -> truthy d = true.
Proof.
  destruct d as [| | | | |kvs]; cbn; try discriminate.
  destruct kvs; [discriminate | reflexivity].
Qed.

Lemma field_dict_get (d : json) (key : string) (default v : json) :
  field key d = Some v -> dict_get d key default = Ok v.
Proof.
  destruct d as [| | | | |kvs]; cbn; try discriminate. intros ->. reflexivity.
Qed.

(** Everything a returned record was made from. *)
Lemma extract_parts (d : json) (r : MovieData) :
  extract_movie_data d = Ok (Some r) ->
  truthy d = true
  /\ find_director d = Ok (director r)
  /\ top_cast d = Ok (cast r)
  /\ joined_names d "genres" = Ok (genres r)
  /\ joined_names d "production_companies" = Ok (production_companies r)
  /\ (exists v, dict_get d "overview" (JStr "") = Ok v
                /\ flatten_lines v = Ok (overview r))
  /\ (exists v, dict_get d "tagline" (JStr "") = Ok v
                /\ flatten_lines v = Ok (tagline r))
  /\ id r = or_empty (field "id" d)
  /\ title r = or_empty (field "title" d)
  /\ release_date r = or_empty (field "release_date" d)
  /\ runtime r = or_empty (field "runtime" d)
  /\ vote_average r = or_empty (field "vote_average" d)
  /\ vote_count r = or_empty (field "vote_count" d)
  /\ popularity r = or_empty (field "popularity" d)
  /\ budget r = or_empty (field "budget" d)
  /\ revenue r = or_empty (field "revenue" d)
  /\ original_language r = or_empty (field "original_language" d).
Proof.
  unfold extract_movie_data. intros H.
  destruct (truthy d) eqn:Ht; [|discriminate]. cbn [negb] in H.
  repeat rbind_open H.
  injection H as <-. cbn.
  repeat match goal with
         | E : dict_get d _ (JStr "") = Ok _ |- _ =>
             pose proof (dict_get_field _ _ _ _ E); clear E
         end.
  unfold or_empty. repeat split; eauto.
Qed.

Lemma has_char_replaced (old new : ascii) (s : string) :
  new <> old -> has_char old (replace_char old new s) = false.
Proof.
  intros Hne. induction s as [|c s IH]; [reflexivity|].
  cbn. rewrite IH, orb_false_r.
  destruct (Ascii.eqb_spec c old) as [-> | Hc].
  - apply Ascii.eqb_neq. exact Hne.
  - apply Ascii.eqb_neq. exact Hc.
Qed.

Lemma has_char_kept_out (c old new : ascii) (s : string) :
  new <> c -> has_char c s = false -> has_char c (replace_char old new s) = false.
Proof.
  intros Hne. induction s as [|x s IH]; [reflexivity|].
  cbn. intros H. apply orb_false_iff in H as [Hx Hs].
  rewrite (IH Hs), orb_false_r.
  destruct (Ascii.eqb x old); [apply Ascii.eqb_neq; exact Hne | exact Hx].
Qed.

Lemma flatten_lines_clean (v : json) (s : string) :
  flatten_lines v = Ok s -> has_char LF s = false /\ has_char CR s = false.
Proof.
  destruct v; cbn; try discriminate. intros H. injection H as <-. split.
  - apply has_char_kept_out; [discriminate|]. apply has_char_replaced. discriminate.
  - apply has_char_replaced. discriminate.
Qed.

Lemma all_str_inv (l : list json) :
  forall ss, all_str l = Ok ss -> l = map JStr ss.
Proof.
  induction l as [|v l IH]; cbn; intros ss H.
  - injection H as <-. reflexivity.
  - destruct v; try discriminate.
    destruct (all_str l) as [ss'|] eqn:E; [|discriminate].
    cbn in H. injection H as <-. cbn. rewrite (IH ss' eq_refl). reflexivity.
Qed.

Lemma names_of_length (l names : list json) :
  names_of l = Ok names -> List.length names = List.length l.
Proof.
  unfold names_of. revert names. induction l as [|p l IH]; cbn; intros names H.
  - injection H as <-. reflexivity.
  - destruct (dict_get p "name" (JStr "")); [|discriminate]. cbn in H.
    destruct (map_result _ l) as [bs|] eqn:E; [|discriminate]. cbn in H.
    injection H as <-. cbn. rewrite (IH bs eq_refl). reflexivity.
Qed.

(** The joined list behind a field: the names of the entries read, all of
    them strings. *)
Lemma joined_inv (entries : list json) (shown : string) :
  (let* names := names_of entries in join_comma names) = Ok shown ->
  exists names,
    names_of entries = Ok (map JStr names)
    /\ shown = String.concat ", " names
    /\ List.length names = List.length entries.
Proof.
  intros H. destruct (names_of entries) as [js|] eqn:E; [|discriminate].
  cbn [rbind] in H. unfold join_comma in H.
  destruct (all_str js) as [ss|] eqn:Es; [|discriminate]. cbn in H.
  injection H as <-. exists ss. apply all_str_inv in Es. subst js.
  split; [reflexivity|]. split; [reflexivity|].
  apply names_of_length in E. rewrite length_map in E. exact E.
Qed.

Lemma director_loop_first (before after : list json) (person : json) (found : json) :
  (forall p, In p before -> directs p = false) ->
  directs person = true ->
  director_loop (before ++ person :: after) = Ok found ->
  found = or_empty (field "name" person).
Proof.
  intros Hb Hp. induction before as [|p before IH]; cbn [app director_loop].
  - destruct person as [| | | | |kvs]; try discriminate.
    unfold directs in Hp. cbn in Hp. cbn.
    destruct (lookup "job" kvs) as [job|]; [|discriminate].
    rewrite Hp. intros H. injection H as <-. reflexivity.
  - destruct p as [| | | | |kvs]; try discriminate.
    assert (Hd := Hb (JObj kvs) (or_introl eq_refl)).
    unfold directs in Hd. cbn in Hd. cbn.
    destruct (lookup "job" kvs) as [job|].
    + rewrite Hd. apply IH. intros q Hq. apply Hb. right. exact Hq.
    + cbn. apply IH. intros q Hq. apply Hb. right. exact Hq.
Qed.

Lemma director_loop_none (crew : list json) (found : json) :
  (forall p, In p crew -> directs p = false) ->
  director_loop crew = Ok found ->
  found = JStr "".
Proof.
  intros Hb. induction crew as [|p crew IH]; cbn [director_loop].
  - congruence.
  - destruct p as [| | | | |kvs]; try discriminate.
    assert (Hd := Hb (JObj kvs) (or_introl eq_refl)).
    unfold directs in Hd. cbn in Hd. cbn.
    destruct (lookup "job" kvs) as [job|].
    + rewrite Hd. apply IH. intros q Hq. apply Hb. right. exact Hq.
    + cbn. apply IH. intros q Hq. apply Hb. right. exact Hq.
Qed.

End TransformerMore.

(** X5. The overview and the tagline of a record the transformer returns
    hold no line feed and no carriage return. *)
Theorem text_fields_hold_no_line_break (d : json) (r : MovieData) :
  extract_movie_data d = Ok (Some r) ->
  has_char LF (overview r) = false
  /\ has_char CR (overview r) = false
  /\ has_char LF (tagline r) = false
  /\ has_char CR (tagline r) = false.
Proof.
  intros H. apply extract_parts in H.
  destruct H as (_ & _ & _ & _ & _ & (v & _ & Ho) & (w & _ & Ht) & _).
  destruct (flatten_lines_clean v _ Ho). destruct (flatten_lines_clean w _ Ht).
  auto.
Qed.

Lemma text_fields_hold_no_line_break_witness :
  exists r,
    extract_movie_data sample_details = Ok (Some r)
    /\ overview r = "a b c"
    /\ has_char LF (overview r) = false
    /\ has_char CR (overview r) = false
    /\ has_char LF (tagline r) = false
    /\ has_char CR (tagline r) = false.
Proof.
  eexists. split; [reflexivity|]. split; [reflexivity|].
  exact (text_fields_hold_no_line_break sample_details _ eq_refl).
Defined.

(** X6. The director of a returned record is the name of the first crew
    entry whose job is "Director" (the empty string if that entry has no
    name); entries after it are not looked at.  When no crew entry has
    that job the director is the empty string. *)
Theorem director_is_first_director_of_crew
    (d : json) (r : MovieData) (credits : json) (crew : list json) :
  extract_movie_data d = Ok (Some r) ->
  field "credits" d = Some credits ->
  field "crew" credits = Some (JArr crew) ->
  (forall before person after,
      crew = before ++ person :: after ->
      (forall p, In p before -> directs p = false) ->
      directs person = true ->
      director r = or_empty (field "name" person))
  /\ ((forall p, In p crew -> directs p = false) -> director r = JStr "").
Proof.
  intros H Hc Hw. apply extract_parts in H. destruct H as (_ & Hd & _).
  unfold find_director in Hd.
  rewrite (field_dict_get _ _ JNull _ Hc) in Hd. cbn [rbind] in Hd.
  rewrite (field_truthy _ _ _ Hw) in Hd.
  rewrite (field_dict_get _ _ JNull _ Hw) in Hd. cbn [rbind] in Hd.
  split.
  - intros before person after -> Hb Hp.
    assert (Ht : truthy (JArr (before ++ person :: after)) = true)
      by (destruct before; reflexivity).
    rewrite Ht in Hd. cbn [iterate rbind] in Hd.
    eapply director_loop_first; eauto.
  - intros Hnone. destruct crew as [|p crew]; [cbn in Hd; congruence|].
    cbn [truthy iterate rbind] in Hd.
    eapply director_loop_none; eauto.
Qed.

Lemma director_is_first_director_of_crew_witness :
  exists r,
    extract_movie_data sample_details = Ok (Some r)
    /\ director r = JStr "D".
Proof.
  eexists. split; [reflexivity|].
  refine (proj1 (director_is_first_director_of_crew sample_details _ sample_credits
                   [crew_member "P" "Producer"; crew_member "D" "Director"; JNull]
                   eq_refl eq_refl eq_refl)
                [crew_member "P" "Producer"] (crew_member "D" "Director") [JNull]
                eq_refl _ eq_refl).
  intros p [<- | []]. reflexivity.
Defined.

(** X7. The fields the transformer only copies (id, title, release date,
    runtime, the two vote fields, popularity, budget, revenue, original
    language) hold what the payload holds under the key, [null]
    included, and the empty string when the key is missing. *)
Theorem copied_fields_come_from_payload (d : json) (r : MovieData) :
  extract_movie_data d = Ok (Some r) ->
  id r = or_empty (field "id" d)
  /\ title r = or_empty (field "title" d)
  /\ release_date r = or_empty (field "release_date" d)
  /\ runtime r = or_empty (field "runtime" d)
  /\ vote_average r = or_empty (field "vote_average" d)
  /\ vote_count r = or_empty (field "vote_count" d)
  /\ popularity r = or_empty (field "popularity" d)
  /\ budget r = or_empty (field "budget" d)
  /\ revenue r = or_empty (field "revenue" d)
  /\ original_language r = or_empty (field "original_language" d).
Proof.
  intros H. apply extract_parts in H.
  destruct H as (_ & _ & _ & _ & _ & _ & _ & H). exact H.
Qed.

Lemma copied_fields_come_from_payload_witness :
  exists r,
    extract_movie_data sample_details = Ok (Some r)
    /\ id r = JNum 550
    /\ title r = JStr "Fight Club"
    /\ runtime r = JStr "".
Proof.
  eexists. split; [reflexivity|].
  pose proof (copied_fields_come_from_payload sample_details _ eq_refl)
    as (H1 & H2 & _ & H4 & _).
  split; [exact H1|]. split; [exact H2 | exact H4].
Defined.

(** X8. A payload whose overview, or whose tagline, is present and is not
    a string (such as [null]) yields no record: the transformer raises. *)
Theorem text_that_is_no_string_raises (d : json) (key : string) (v : json) :
  key = "overview" \/ key = "tagline" ->
  field key d = Some v ->
  (forall s, v <> JStr s) ->
  exists e, extract_movie_data d = Raise e.
Proof.
  intros Hkey Hf Hv.
  destruct (extract_movie_data d) as [[r|]|e] eqn:E.
  - exfalso. apply extract_parts in E.
    destruct E as (_ & _ & _ & _ & _ & (a & Ha & Fa) & (b & Hb & Fb) & _).
    destruct Hkey as [-> | ->].
    + rewrite (field_dict_get _ _ (JStr "") _ Hf) in Ha. injection Ha as <-.
      destruct v; try discriminate. eapply Hv; reflexivity.
    + rewrite (field_dict_get _ _ (JStr "") _ Hf) in Hb. injection Hb as <-.
      destruct v; try discriminate. eapply Hv; reflexivity.
  - exfalso. unfold extract_movie_data in E.
    rewrite (field_truthy _ _ _ Hf) in E. cbn [negb] in E.
    repeat match type of E with
           | rbind ?x _ = Ok _ => destruct x; [cbn [rbind] in E | discriminate E]
           end.
    discriminate.
  - exists e. reflexivity.
Qed.

Lemma text_that_is_no_string_raises_witness :
  exists e, extract_movie_data null_overview = Raise e.
Proof.
  refine (text_that_is_no_string_raises null_overview "overview" JNull
            (or_introl eq_refl) eq_refl _).
  intros s. discriminate.
Defined.

(** X9. The cast field of a returned record is the names of the first ten
    cast entries, in their order, joined by ", "; it holds ten names when
    the cast is longer, and nothing past the tenth entry is read. *)
Theorem cast_is_first_ten_names
    (d : json) (r : MovieData) (credits : json) (members : list json) :
  extract_movie_data d = Ok (Some r) ->
  field "credits" d = Some credits ->
  field "cast" credits = Some (JArr members) ->
  exists names,
    names_of (firstn 10 members) = Ok (map JStr names)
    /\ cast r = String.concat ", " names
    /\ List.length names = Nat.min 10 (List.length members).
Proof.
  intros H Hc Hm. apply extract_parts in H. destruct H as (_ & _ & Ht & _).
  unfold top_cast in Ht.
  rewrite (field_dict_get _ _ JNull _ Hc) in Ht. cbn [rbind] in Ht.
  rewrite (field_truthy _ _ _ Hm) in Ht.
  rewrite (field_dict_get _ _ JNull _ Hm) in Ht. cbn [rbind] in Ht.
  destruct members as [|m members].
  - cbn in Ht. injection Ht as <-. exists []. repeat split.
  - cbn [truthy slice_to rbind iterate] in Ht.
    destruct (joined_inv _ _ Ht) as (names & E1 & E2 & E3).
    exists names. split; [exact E1|]. split; [exact E2|].
    rewrite E3. apply length_firstn.
Qed.

Lemma cast_is_first_ten_names_witness :
  exists r,
    extract_movie_data sample_details = Ok (Some r)
    /\ exists names,
         names_of (firstn 10 (map named twelve ++ [JNum 0])) = Ok (map JStr names)
         /\ cast r = String.concat ", " names
         /\ List.length names = Nat.min 10 13.
Proof.
  eexists. split; [reflexivity|].
  exact (cast_is_first_ten_names sample_details _ sample_credits
           (map named twelve ++ [JNum 0]) eq_refl eq_refl eq_refl).
Defined.

(** X10. The genres field and the production companies field of a
    returned record are the names of all the entries of the payload's
    list, in their order, joined by ", "; each is empty when the payload
    has no such key. *)
Theorem name_lists_are_joined_in_full (d : json) (r : MovieData) :
  extract_movie_data d = Ok (Some r) ->
  (forall entries, field "genres" d = Some (JArr entries) ->
     exists names, names_of entries = Ok (map JStr names)
                   /\ genres r = String.concat ", " names
                   /\ List.length names = List.length entries)
  /\ (forall entries, field "production_companies" d = Some (JArr entries) ->
        exists names, names_of entries = Ok (map JStr names)
                      /\ production_companies r = String.concat ", " names
                      /\ List.length names = List.length entries)
  /\ (field "genres" d = None -> genres r = "")
  /\ (field "production_companies" d = None -> production_companies r = "").
Proof.
  intros H. apply extract_parts in H.
  destruct H as (Hd & _ & _ & Hg & Hp & _).
  assert (Hlist : forall key shown entries,
            joined_names d key = Ok shown ->
            field key d = Some (JArr entries) ->
            exists names, names_of entries = Ok (map JStr names)
                          /\ shown = String.concat ", " names
                          /\ List.length names = List.length entries).
  { intros key shown entries Hj Hf. unfold joined_names in Hj.
    rewrite (field_dict_get _ _ JNull _ Hf) in Hj. cbn [rbind] in Hj.
    destruct entries as [|e entries].
    - cbn in Hj. injection Hj as <-. exists []. repeat split.
    - cbn [truthy iterate rbind] in Hj. apply joined_inv. exact Hj. }
  assert (Hnone : forall key shown,
            joined_names d key = Ok shown -> field key d = None -> shown = "").
  { intros key shown Hj Hf. unfold joined_names in Hj.
    destruct d as [| | | | |kvs]; try discriminate.
    cbn in Hf. cbn in Hj. rewrite Hf in Hj. cbn in Hj. congruence. }
  split; [intros entries; apply Hlist; exact Hg|].
  split; [intros entries; apply Hlist; exact Hp|].
  split; [apply Hnone; exact Hg | apply Hnone; exact Hp].
Qed.

Lemma name_lists_are_joined_in_full_witness :
  exists r,
    extract_movie_data sample_details = Ok (Some r)
    /\ genres r = "Drama"
    /\ production_companies r = "Fox, Regency"
    /\ exists names, names_of [named "Fox"; named "Regency"] = Ok (map JStr names)
                     /\ production_companies r = String.concat ", " names
                     /\ List.length names = 2%nat.
Proof.
  eexists. split; [reflexivity|]. split; [reflexivity|]. split; [reflexivity|].
  exact (proj1 (proj2 (name_lists_are_joined_in_full sample_details _ eq_refl))
               [named "Fox"; named "Regency"] eq_refl).
Defined.

(* ===================================================================== *)
(** ** Invariants of the loops, in general *)
(* ===================================================================== *)

Section Leads.

Lemma leads_bind {A B} (P R Q : Session -> Prop) (m : M A) (k : A -> M B) :
  leads P R m -> (forall s, R s -> Q s) -> (forall a, leads R Q (k a)) ->
  leads P Q (bind m k).
Proof.
  intros Hm Hrq Hk s o s' H Hs.
  apply bind_inv in H as [(a & s1 & E & H) | [(e & E & _) | [E _]]].
  - eapply Hk; eauto.
  - apply Hrq. eapply Hm; eauto.
  - apply Hrq. eapply Hm; eauto.
Qed.

Lemma preserves_bind_lift {A B} (I : Session -> Prop) (r : result A) (k : A -> M B) :
  (forall a, r = Ok a -> preserves I (k a)) -> preserves I (bind (lift r) k).
Proof.
  intros Hk. destruct r as [a|e].
  - intros s o s' H. rewrite bind_lift_ok in H. revert H. apply Hk. reflexivity.
  - intros s o s' H Hs. inversion H; subst. exact Hs.
Qed.

Lemma min_int_le (v : json) (cap total : Z) : min_int v cap = Ok total -> total <= cap.
Proof.
  unfold min_int. destruct (as_int v) as [i|]; [|discriminate].
  intros H. injection H as <-. destruct (Z.ltb_spec cap i); lia.
Qed.

Lemma should_skip_year_same (year : Z) (s : Session) :
  snd (should_skip_year year s) = s.
Proof.
  unfold should_skip_year. rewrite bind_gets.
  destruct (dict_get (progress s) "last_year" JNull) as [v|e]; [|reflexivity].
  rewrite bind_lift_ok. destruct v; try reflexivity;
    (destruct (int_lt year _); reflexivity).
Qed.

Lemma get_starting_page_same (year : Z) (s : Session) :
  snd (get_starting_page year s) = s.
Proof.
  unfold get_starting_page. rewrite bind_gets.
  destruct (dict_get (progress s) "last_year" JNull) as [v|e]; [|reflexivity].
  rewrite bind_lift_ok. destruct (eq_int v year); [|reflexivity].
  destruct (dict_get (progress s) "last_page" (JNum 1)); reflexivity.
Qed.

End Leads.

Section LoopsKeep.
Variable env : Env.
Variable pause : bool.
Variable I : Session -> Prop.

(** The loop over the items of a page.  While an item is handled a
    second property [J] may hold, which the write turns back into [I]. *)
Section Movies.
Variable J : json -> Session -> Prop.
Hypothesis enter :
  forall v s, I s -> hashable v = true -> mem v (extracted_ids s) = false -> J v s.
Hypothesis J_fetch : forall v, preserves (J v) (fetch_movie_details env v).
Hypothesis J_write : forall v row, leads (J v) I (write_row v row).
Hypothesis leave : forall v s, J v s -> I s.
Hypothesis I_sleep : forall ms, preserves I (sleep ms).

Lemma movie_loop_keeps (l : list json) : preserves I (movie_loop env l).
Proof.
  induction l as [|movie rest IH]; cbn [movie_loop]; [apply preserves_ret|].
  apply preserves_bind; [apply preserves_lift|]. intros movie_id.
  destruct (negb (truthy movie_id)); [exact IH|].
  intros s o s' H Hs. rewrite bind_gets in H.
  unfold set_in in H. destruct (hashable movie_id) eqn:Hh.
  2: { inversion H; subst. exact Hs. }
  rewrite bind_lift_ok in H.
  destruct (mem movie_id (extracted_ids s)) eqn:Hknown.
  { eapply IH; eauto. }
  pose proof (enter movie_id s Hs Hh Hknown) as Hj.
  revert H Hj. generalize s o s'.
  change (leads (J movie_id) I
    (details <- fetch_movie_details env movie_id ;;
     (if truthy details
      then movie_data <- lift (extract_movie_data details) ;;
           match movie_data with
           | Some row => write_row movie_id row
           | None => ret tt
           end
      else ret tt) ;;
     sleep 300 ;;
     movie_loop env rest)).
  apply (leads_bind _ (J movie_id)); [apply J_fetch | apply leave |].
  intros details.
  apply (leads_bind _ I); [| auto |].
  - destruct (truthy details).
    + apply (leads_bind _ (J movie_id)); [apply preserves_lift | apply leave |].
      intros [row|]; [apply J_write|].
      intros s1 o1 s2 H1 Hj1. inversion H1; subst. eapply leave; eauto.
    + intros s1 o1 s2 H1 Hj1. inversion H1; subst. eapply leave; eauto.
  - intros _.
    assert (Hp : preserves I (sleep 300 ;; movie_loop env rest)) by preserve.
    exact Hp.
Qed.
End Movies.

(** The same, where the write has to turn [J] back into [I] only for a
    row made from a payload the detail endpoint gave for the item. *)
Section MoviesAnswered.
Variable J : json -> Session -> Prop.
Hypothesis enter :
  forall v s, I s -> hashable v = true -> mem v (extracted_ids s) = false -> J v s.
Hypothesis J_fetch : forall v, preserves (J v) (fetch_movie_details env v).
Hypothesis J_write :
  forall v details row,
    (exists t, server env t (Detail v) = Http 200 (Some details)) ->
    extract_movie_data details = Ok (Some row) ->
    leads (J v) I (write_row v row).
Hypothesis leave : forall v s, J v s -> I s.
Hypothesis I_sleep : forall ms, preserves I (sleep ms).

End MoviesAnswered.

(** The loop over the pages of one year, which asks for no page below
    [low] and none above the ceiling. *)
Section Pages.
Variable year : Z.
Variable low : Z.
Hypothesis I_fetch :
  forall page, low <= page <= 500 -> preserves I (fetch_movies_from_year env year page).
Hypothesis I_prompt :
  forall fuel p w, preserves I (pause_on_error_prompt env fuel year p w).
Hypothesis I_save : forall p, preserves I (save_progress env year p).
Hypothesis I_sleep : forall ms, preserves I (sleep ms).
Hypothesis I_movies : forall l, preserves I (movie_loop env l).

Lemma page_loop_keeps (fuel : nat) :
  forall page total empties,
    low <= page -> total <= 500 ->
    preserves I (page_loop env pause fuel year page total empties).
Proof.
  induction fuel as [|fuel IH]; intros page total empties Hlow Hcap;
    cbn [page_loop]; [apply preserves_out_of_fuel|].
  destruct (Z.leb_spec page total) as [Hle|_]; [|apply preserves_ret].
  assert (Hnext : low <= page + 1) by lia.
  apply preserves_bind; [apply I_fetch; lia|]. intros data.
  destruct (negb (truthy data)).
  - preserve.
  - apply preserves_bind; [apply preserves_lift|]. intros reported.
    apply preserves_bind_lift. intros total' Hmin. apply min_int_le in Hmin.
    preserve.
Qed.
End Pages.

(** The loop over the years. *)
Lemma year_loop_keeps (fuel : nat) (years : list Z) :
  (forall year s, In year years -> I s ->
     fst (should_skip_year year s) = Done false ->
     forall page, fst (get_starting_page year s) = Done page ->
     forall start, as_int page = Some start ->
       preserves I (page_loop env pause fuel year start 1 0)) ->
  preserves I (year_loop env pause fuel years).
Proof.
  induction years as [|year later IH]; intros Hpage; cbn [year_loop];
    [apply preserves_ret|].
  assert (IH' : preserves I (year_loop env pause fuel later)).
  { apply IH. intros y s Hy. apply Hpage. right. exact Hy. }
  intros s o s' H Hs.
  pose proof (should_skip_year_same year s) as Esame.
  apply bind_inv in H as [(skip & s1 & E & H) | [(e & E & _) | [E _]]];
    rewrite E in Esame; cbn [snd] in Esame; subst; try exact Hs.
  destruct skip; [eapply IH'; eauto|].
  pose proof (get_starting_page_same year s) as Gsame.
  apply bind_inv in H as [(page & s1 & G & H) | [(e & G & _) | [G _]]];
    rewrite G in Gsame; cbn [snd] in Gsame; subst; try exact Hs.
  apply bind_inv in H as [(b & s1 & G1 & H) | [(e & G1 & _) | [G1 _]]];
    try (destruct (gt_int page 1); inversion G1; subst; exact Hs).
  assert (s1 = s) by (destruct (gt_int page 1); inversion G1; reflexivity).
  subst s1.
  destruct (as_int page) as [start|] eqn:Ea.
  2: { inversion H; subst. exact Hs. }
  assert (Hp : preserves I (page_loop env pause fuel year start 1 0)).
  { eapply (Hpage year s); eauto.
    - left. reflexivity.
    - rewrite E. reflexivity.
    - rewrite G. reflexivity. }
  revert H Hs. generalize s o s'.
  change (preserves I
    (exit <- page_loop env pause fuel year start 1 0 ;;
     match exit with
     | YearOver => year_loop env pause fuel later
     | Returned => ret Returned
     end)).
  preserve.
Qed.

End LoopsKeep.

(** [run] as a whole: [I0] from the start to the opening of the output
    file, [I] from there on, [Q] at the end. *)
Lemma run_leads (env : Env) (pause : bool) (fuel : nat) (api_key : string)
    (I0 I Q : Session -> Prop) (s0 : Session) :
  Q s0 ->
  I0 (set_total_movies
        (Z.of_nat (List.length (load_existing_movie_ids (output_file s0))))
        (set_extracted_ids (load_existing_movie_ids (output_file s0)) s0)) ->
  preserves I0 (fetch_with_retry env ApiKeyTest) ->
  leads I0 I open_output ->
  preserves I (year_loop env pause fuel YEARS) ->
  preserves I clear_progress ->
  (forall s, I0 s -> Q s) ->
  (forall s, I s -> Q s) ->
  Q (snd (run env pause fuel api_key s0)).
Proof.
  intros Hq0 Hstart Hprobe Hopen Hyears Hclear H0q Hiq.
  destruct (run env pause fuel api_key s0) as [o s'] eqn:E. cbn [snd].
  unfold run in E. destruct (api_key =? "YOUR_API_KEY_HERE")%string.
  { inversion E; subst. exact Hq0. }
  unfold bind at 1 in E. cbn [modify] in E.
  unfold bind at 1 in E. cbn [modify] in E.
  assert (L : leads I0 Q
    (test_result <- fetch_with_retry env ApiKeyTest ;;
     if negb (truthy test_result) then ret KeyTestFailed else
     open_output ;;
     exit <- year_loop env pause fuel YEARS ;;
     match exit with
     | Returned => ret StoppedByOperator
     | YearOver => clear_progress ;; ret Completed
     end)).
  { apply (leads_bind _ I0); [exact Hprobe | exact H0q |]. intros t.
    destruct (negb (truthy t)).
    { intros s o1 s2 H Hs. inversion H; subst. apply H0q. exact Hs. }
    apply (leads_bind _ I); [exact Hopen | exact Hiq |]. intros _.
    apply (leads_bind _ I); [exact Hyears | exact Hiq |]. intros exit.
    destruct exit.
    - apply (leads_bind _ I); [exact Hclear | exact Hiq |]. intros _.
      intros s o1 s2 H Hs. inversion H; subst. apply Hiq. exact Hs.
    - intros s o1 s2 H Hs. inversion H; subst. apply Hiq. exact Hs. }
  eapply L; [exact E | exact Hstart].
Qed.

(** Properties that only the effects named by [calm] cannot disturb. *)
Section Calm.
Variable env : Env.
Variable I : Session -> Prop.
Variable calm : Event -> Prop.
Hypothesis I_calm : forall e s, calm e -> I s -> I (record e s).
Hypothesis I_failed : forall n s, I s -> I (set_failed_requests n s).
Hypothesis calm_sleep : forall ms, calm (EvSleep ms).
Hypothesis calm_prompt : forall y p w, calm (EvPrompt y p w).
Hypothesis calm_input : forall i, calm (EvInput i).

Lemma calm_keeps_sleep (ms : Z) : preserves I (sleep ms).
Proof. prim. inversion H; subst. auto. Qed.

Lemma calm_keeps_failed :
  preserves I (modify (fun s => set_failed_requests (failed_requests s + 1) s)).
Proof. prim. inversion H; subst. auto. Qed.

Lemma calm_keeps_fetch (req : Request) :
  (forall resp, calm (EvRequest req resp)) ->
  preserves I (fetch_with_retry env req).
Proof.
  intros Hreq. apply preserves_fetch_attempts;
    auto using calm_keeps_sleep, calm_keeps_failed.
  prim. inversion H; subst. auto.
Qed.

Lemma calm_keeps_prompt (fuel : nat) (y p : Z) (w : PromptReason) :
  preserves I (pause_on_error_prompt env fuel y p w).
Proof.
  apply preserves_prompt.
  - prim. inversion H; subst. auto.
  - intros y' p' w'. prim. inversion H; subst. auto.
Qed.

End Calm.

(* ===================================================================== *)
(** ** Which pages a run asks for *)
(* ===================================================================== *)

Section PagesAsked.
Variable env : Env.
Variable pause : bool.
Variable allowed : Z -> Z -> Prop.
Variable loaded : json.


Lemma asked_record (e : Event) (s : Session) :
  (admits allowed) e -> (asked allowed loaded) s -> (asked allowed loaded) (record e s).
Proof.
  intros He [Hp Hl]. split; [|exact Hl].
  intros y p resp [-> | Hin]; [exact He | eapply Hp; eauto].
Qed.

Lemma asked_failed (n : Z) (s : Session) : (asked allowed loaded) s -> (asked allowed loaded) (set_failed_requests n s).
Proof. intros H. exact H. Qed.

Lemma asked_save (y p : Z) : preserves (asked allowed loaded) (save_progress env y p).
Proof.
  prim. destruct (disk env (trace s)); inversion H; subst;
    apply (asked_record _ s); auto; exact I.
Qed.

Lemma asked_write (v : json) (row : MovieData) : preserves (asked allowed loaded) (write_row v row).
Proof. prim. inversion H; subst. apply (asked_record _ s); auto. exact I. Qed.

Lemma asked_movie_loop (l : list json) : preserves (asked allowed loaded) (movie_loop env l).
Proof.
  apply preserves_movie_loop.
  - apply (calm_keeps_sleep (asked allowed loaded) (admits allowed) asked_record). exact (fun _ => I).
  - apply (calm_keeps_failed (asked allowed loaded) asked_failed).
  - intros v s _ _. split; [|apply asked_write].
    prim. inversion H; subst. apply asked_record; auto. exact I.
Qed.

Lemma asked_open : preserves (asked allowed loaded) open_output.
Proof.
  prim. destruct (output_file s); inversion H; subst; [exact Hs|].
  apply (asked_record _ s); auto. exact I.
Qed.

Lemma asked_clear : preserves (asked allowed loaded) clear_progress.
Proof.
  prim. destruct (progress_file s); inversion H; subst; [|exact Hs].
  apply (asked_record _ s); auto. exact I.
Qed.

Lemma asked_page_loop (fuel : nat) (year low page total empties : Z) :
  (forall p, low <= p <= 500 -> allowed year p) ->
  low <= page -> total <= 500 ->
  preserves (asked allowed loaded) (page_loop env pause fuel year page total empties).
Proof.
  intros Hallow. apply page_loop_keeps.
  - intros p Hp. apply (calm_keeps_fetch env (asked allowed loaded) (admits allowed) asked_record asked_failed);
      try exact (fun _ => I). intros resp. cbn. auto.
  - intros f p w. apply (calm_keeps_prompt env (asked allowed loaded) (admits allowed) asked_record);
      intros; exact I.
  - apply asked_save.
  - apply (calm_keeps_sleep (asked allowed loaded) (admits allowed) asked_record). exact (fun _ => I).
  - apply asked_movie_loop.
Qed.

(** Where [run] may go for a year it does not skip: from the page it
    starts at up to the ceiling. *)
Hypothesis reach :
  forall year s v start p,
    In year YEARS -> progress s = loaded ->
    fst (should_skip_year year s) = Done false ->
    fst (get_starting_page year s) = Done v ->
    as_int v = Some start ->
    start <= p <= 500 ->
    allowed year p.

Lemma asked_run (fuel : nat) (api_key : string) (s0 : Session) :
  trace s0 = [] -> progress s0 = loaded ->
  pages_within allowed (snd (run env pause fuel api_key s0)).
Proof.
  intros Ht Hl.
  assert (H0 : (asked allowed loaded) s0).
  { split; [|exact Hl]. intros y p resp Hin. rewrite Ht in Hin. destruct Hin. }
  apply (run_leads env pause fuel api_key (asked allowed loaded) (asked allowed loaded) (pages_within allowed)).
  - apply H0.
  - exact H0.
  - apply (calm_keeps_fetch env (asked allowed loaded) (admits allowed) asked_record asked_failed);
      exact (fun _ => I).
  - apply asked_open.
  - apply year_loop_keeps.
    intros year s Hy [_ Hs] Hskip v Hv start Ha.
    apply (asked_page_loop fuel year start); try lia.
    intros p Hp. eapply reach; eauto.
  - apply asked_clear.
  - intros s [H _]. exact H.
  - intros s [H _]. exact H.
Qed.

End PagesAsked.

(** X11. Every page a run asks of the discover endpoint belongs to one of
    the years of [YEARS] and has a number of at most 500, whatever the
    upstream reports as its page count and whatever the checkpoint
    holds. *)
Theorem no_page_beyond_the_ceiling
    (env : Env) (pause : bool) (fuel : nat) (api_key : string)
    (csv : option (list IdCell)) (checkpoint : option FileContent) :
  pages_within (fun y p => In y YEARS /\ p <= 500)
    (snd (run env pause fuel api_key (init csv checkpoint))).
Proof.
  apply (asked_run env pause _ (load_progress checkpoint)); try reflexivity.
  intros year s v start p Hy _ _ _ _ Hp. split; [exact Hy | lia].
Qed.

Section ResumePoint.

Lemma skip_decided (year last : Z) (s : Session) :
  field "last_year" (progress s) = Some (JNum last) ->
  fst (should_skip_year year s) = Done false ->
  last <= year.
Proof.
  intros Hf. destruct (progress s) as [| | | | |kvs] eqn:Ep; try discriminate.
  cbn [field] in Hf. unfold should_skip_year.
  rewrite bind_gets, Ep. unfold dict_get. rewrite Hf, bind_lift_ok.
  unfold int_lt, as_int. cbn [lift ret fst]. intros H. injection H as H.
  apply Z.ltb_ge. exact H.
Qed.

Lemma start_decided (year last : Z) (first v : json) (s : Session) :
  field "last_year" (progress s) = Some (JNum last) ->
  field "last_page" (progress s) = Some first ->
  fst (get_starting_page year s) = Done v ->
  (year = last /\ v = first) \/ (year <> last /\ v = JNum 1).
Proof.
  intros Hy Hp. destruct (progress s) as [| | | | |kvs] eqn:Ep; try discriminate.
  cbn [field] in Hy, Hp. unfold get_starting_page.
  rewrite bind_gets, Ep. unfold dict_get. rewrite Hy, bind_lift_ok.
  unfold eq_int, as_int. destruct (Z.eqb_spec last year) as [-> | Hne].
  - rewrite Hp. cbn. intros H. injection H as <-. left. auto.
  - cbn. intros H. injection H as <-. right. split; congruence.
Qed.

Lemma start_without_checkpoint (year : Z) (v : json) (s : Session) :
  field "last_year" (progress s) = None
  \/ field "last_year" (progress s) = Some JNull ->
  fst (get_starting_page year s) = Done v ->
  v = JNum 1.
Proof.
  intros Hy. unfold get_starting_page. rewrite bind_gets.
  destruct (progress s) as [| | | | |kvs] eqn:Ep; try discriminate;
    try (cbn; discriminate).
  cbn [field] in Hy. unfold dict_get.
  destruct Hy as [Hy|Hy]; rewrite Hy, bind_lift_ok; cbn;
    intros H; injection H as <-; reflexivity.
Qed.

End ResumePoint.

(** X12. With a checkpoint that names year [last] and page [first], a run
    asks for no page of a year before [last], for no page of [last]
    below [first], and for no page below 1 of a later year. *)
Theorem run_never_goes_back_before_the_checkpoint
    (env : Env) (pause : bool) (fuel : nat) (api_key : string)
    (csv : option (list IdCell)) (doc : json) (last first : Z) :
  field "last_year" doc = Some (JNum last) ->
  field "last_page" doc = Some (JNum first) ->
  pages_within
    (fun y p => last <= y /\ (y = last -> first <= p) /\ (y <> last -> 1 <= p))
    (snd (run env pause fuel api_key (init csv (Some (Document doc))))).
Proof.
  intros Hy Hp.
  assert (Hl : load_progress (Some (Document doc)) = doc)
    by (destruct doc; try discriminate; reflexivity).
  apply (asked_run env pause _ doc); [|reflexivity|cbn; exact Hl].
  intros year s v start p _ Hs Hskip Hv Ha Hrange.
  rewrite <- Hs in Hy, Hp.
  split; [eapply skip_decided; eauto|].
  destruct (start_decided year last (JNum first) v s Hy Hp Hv) as [[-> ->] | [Hne ->]];
    cbn in Ha; injection Ha as <-; split; intros; try congruence; lia.
Qed.

Lemma run_never_goes_back_before_the_checkpoint_witness :
  pages_within
    (fun y p => 2022 <= y /\ (y = 2022 -> 5 <= p) /\ (y <> 2022 -> 1 <= p))
    (snd (run (catalog 6) PAUSE_ON_ERROR 100 "key"
              (init (Some resume_rows) (Some (Document resume_checkpoint))))).
Proof.
  exact (run_never_goes_back_before_the_checkpoint (catalog 6) PAUSE_ON_ERROR 100
           "key" (Some resume_rows) resume_checkpoint 2022 5 eq_refl eq_refl).
Defined.

(** X13. Without a checkpoint, or with one that does not load, every page
    a run asks for has a number from 1 to 500. *)
Theorem fresh_run_asks_pages_from_one
    (env : Env) (pause : bool) (fuel : nat) (api_key : string)
    (csv : option (list IdCell)) (checkpoint : option FileContent) :
  load_progress checkpoint = empty_progress ->
  pages_within (fun y p => 1 <= p <= 500)
    (snd (run env pause fuel api_key (init csv checkpoint))).
Proof.
  intros Hl.
  apply (asked_run env pause _ empty_progress); [|reflexivity|exact Hl].
  intros year s v start p _ Hs _ Hv Ha Hrange.
  assert (v = JNum 1).
  { eapply start_without_checkpoint; [|exact Hv]. rewrite Hs. right. reflexivity. }
  subst v. cbn in Ha. injection Ha as <-. lia.
Qed.

Lemma fresh_run_asks_pages_from_one_witness :
  pages_within (fun y p => 1 <= p <= 500)
    (snd (run (catalog 6) PAUSE_ON_ERROR 100 "key" (init None (Some Malformed)))).
Proof.
  exact (fresh_run_asks_pages_from_one (catalog 6) PAUSE_ON_ERROR 100 "key" None
           (Some Malformed) eq_refl).
Defined.

(* ===================================================================== *)
(** ** The running total and the index *)
(* ===================================================================== *)

Section Counted.
Variable env : Env.
Variable pause : bool.

Lemma counted_record (e : Event) (s : Session) :
  not_a_save e -> counted s -> counted (record e s).
Proof.
  intros He [H1 H2]. split; [exact H1|].
  intros doc [-> | Hin]; [destruct He | auto].
Qed.

Lemma counted_failed (n : Z) (s : Session) :
  counted s -> counted (set_failed_requests n s).
Proof. intros H. exact H. Qed.

Lemma counted_without_record (v : json) (e : Event) (s : Session) :
  not_a_save e -> counted_without v s -> counted_without v (record e s).
Proof. intros He [H1 H2]. split; [apply counted_record; assumption | exact H2]. Qed.

Lemma counted_save (y p : Z) : preserves counted (save_progress env y p).
Proof.
  prim. destruct Hs as [H1 H2].
  assert (Hnew : forall doc,
            In (EvSaveProgress doc)
               (EvSaveProgress (progress_document env y p s) :: trace s) ->
            exists n ids,
              field "total_movies" doc = Some (JNum n)
              /\ field "extracted_ids" doc = Some (JArr ids)
              /\ n = Z.of_nat (List.length ids)).
  { intros doc [E | Hin]; [|auto].
    injection E as <-. exists (total_movies s), (extracted_ids s).
    repeat split. exact H1. }
  destruct (disk env (trace s)); inversion H; subst; split; assumption.
Qed.

Lemma counted_write (v : json) (row : MovieData) :
  leads (counted_without v) counted (write_row v row).
Proof.
  prim. inversion H; subst. destruct Hs as [[H1 H2] Hv]. split.
  - cbn. unfold set_add. rewrite Hv, length_app. cbn [List.length]. lia.
  - intros doc [E | Hin]; [discriminate | auto].
Qed.

Lemma counted_movie_loop (l : list json) : preserves counted (movie_loop env l).
Proof.
  apply (movie_loop_keeps env counted counted_without).
  - intros v s Hs _ Hv. split; assumption.
  - intros v.
    exact (calm_keeps_fetch env (counted_without v) not_a_save
             (counted_without_record v) (fun n s H => H) (fun _ => I)
             (Detail v) (fun _ => I)).
  - apply counted_write.
  - intros v s [H _]. exact H.
  - apply (calm_keeps_sleep counted not_a_save counted_record). exact (fun _ => I).
Qed.

Lemma counted_open : preserves counted open_output.
Proof.
  prim. destruct (output_file s); inversion H; subst; [exact Hs|].
  apply (counted_record _ s); auto. exact I.
Qed.

Lemma counted_clear : preserves counted clear_progress.
Proof.
  prim. destruct (progress_file s); inversion H; subst; [|exact Hs].
  apply (counted_record _ s); auto. exact I.
Qed.

Lemma counted_year_loop (fuel : nat) (years : list Z) :
  preserves counted (year_loop env pause fuel years).
Proof.
  apply year_loop_keeps. intros year s _ _ _ v _ start _.
  apply (page_loop_keeps env pause counted year start); try lia.
  - intros p _.
    apply (calm_keeps_fetch env counted not_a_save counted_record counted_failed);
      exact (fun _ => I).
  - intros f p w. apply (calm_keeps_prompt env counted not_a_save counted_record);
      intros; exact I.
  - apply counted_save.
  - apply (calm_keeps_sleep counted not_a_save counted_record). exact (fun _ => I).
  - apply counted_movie_loop.
Qed.

End Counted.

(** X14. However a run ends, the running total equals the number of
    identifiers in the index, and every checkpoint document it saved
    lists as many identifiers as its [total_movies] says. *)
Theorem total_is_the_size_of_the_index
    (env : Env) (pause : bool) (fuel : nat) (api_key : string)
    (csv : option (list IdCell)) (checkpoint : option FileContent) :
  counted (snd (run env pause fuel api_key (init csv checkpoint))).
Proof.
  apply (run_leads env pause fuel api_key counted counted counted).
  - split; [reflexivity | intros doc []].
  - split; [reflexivity | intros doc []].
  - apply (calm_keeps_fetch env counted not_a_save counted_record counted_failed);
      exact (fun _ => I).
  - apply counted_open.
  - apply counted_year_loop.
  - apply counted_clear.
  - auto.
  - auto.
Qed.

(* ===================================================================== *)
(** ** No identifier is written twice *)
(* ===================================================================== *)

Section WrittenOnce.
Variable env : Env.
Variable pause : bool.












End WrittenOnce.

(* ===================================================================== *)
(** ** The [id] cell of a row and the identifier it was written for *)
(* ===================================================================== *)

Section Keyed.
Variable env : Env.
Variable pause : bool.
Hypothesis echo : echoes_id env.












End Keyed.

Section RowsAndKeys.



End RowsAndKeys.

(** The catalogue upstreams answer a detail request with the identifier
    asked for, and a run against one writes the row under it. *)
Lemma catalog_echoes_id :
  (forall pages, echoes_id (catalog pages))
  /\ echoes_id (single_page 7)
  /\ written_ids (trace (snd (main (single_page 7) 50 "key" None None))) = [JNum 7].
Proof.
  split; [|split].
  - intros pages t v data H. cbn in H. injection H as <-. reflexivity.
  - intros t v data H. cbn in H. injection H as <-. reflexivity.
  - vm_compute. reflexivity.
Qed.

(** When the detail endpoint answers with another identifier than the one
    asked for, that identifier goes into the [id] cell: with 1 in the CSV
    and movies 5 and 6 listed, two more rows with [id] 1 are appended. *)
Lemma stale_detail_id_is_written_again :
  let s0 := init (Some [IdInt 1]) None in
  let s' := snd (main stale 20 "key" (Some [IdInt 1]) None) in
  mem (JNum 1) (load_existing_movie_ids (output_file s0)) = true
  /\ written_keys (trace s') = [JNum 6; JNum 5]
  /\ written_ids (trace s') = [JNum 1; JNum 1].
Proof. vm_compute. repeat split. Qed.




(* ===================================================================== *)
(** ** The output file only grows *)
(* ===================================================================== *)

Section AppendedOnly.
Variable env : Env.
Variable pause : bool.
Variable found : option (list IdCell).

Lemma written_rows_cons (e : Event) (t : list Event) :
  written_rows (e :: t)
  = written_rows t ++ match e with EvWriteRow _ row => [row] | _ => [] end.
Proof.
  unfold written_rows. cbn [rev]. rewrite flat_map_app. cbn [flat_map].
  rewrite app_nil_r. reflexivity.
Qed.

Lemma written_rows_other (e : Event) (t : list Event) :
  not_an_output e -> written_rows (e :: t) = written_rows t.
Proof.
  intros He. rewrite written_rows_cons.
  destruct e; try (destruct He); apply app_nil_r.
Qed.

Lemma headers_other (e : Event) (t : list Event) :
  not_an_output e -> headers (e :: t) = headers t.
Proof. destruct e; cbn; intros H; try reflexivity; destruct H. Qed.

Lemma appended_only_record (e : Event) (s : Session) :
  not_an_output e -> appended_only found s -> appended_only found (record e s).
Proof.
  intros He H. unfold appended_only in *. cbn [output_file trace record].
  rewrite (written_rows_other e _ He), (headers_other e _ He). exact H.
Qed.

Lemma appending_record (e : Event) (s : Session) :
  not_an_output e -> appending found s -> appending found (record e s).
Proof. intros He [H1 H2]. split; [apply appended_only_record; assumption | exact H2]. Qed.

Lemma appending_save (y p : Z) : preserves (appending found) (save_progress env y p).
Proof.
  prim. destruct (disk env (trace s)); inversion H; subst;
    apply (appending_record _ s); auto; exact I.
Qed.

Lemma appending_write (v : json) (row : MovieData) :
  preserves (appending found) (write_row v row).
Proof.
  prim. inversion H; subst. destruct Hs as [H1 H2].
  unfold appending, appended_only in *.
  cbn [output_file trace record set_total_movies set_extracted_ids set_output_file].
  destruct (output_file s) as [out|]; [|congruence].
  cbn [append_row prior_rows appended]. rewrite written_rows_cons.
  destruct H1 as (A & B & C & D).
  split; [|discriminate]. rewrite B. repeat split; auto.
Qed.

Lemma appending_open : leads (appended_only found) (appending found) open_output.
Proof.
  prim. unfold appending, appended_only in *.
  destruct (output_file s) as [out|] eqn:Eo; inversion H; subst.
  - rewrite Eo. split; [exact Hs | discriminate].
  - destruct Hs as (A & B & C).
    cbn [output_file trace record set_output_file prior_rows appended].
    rewrite written_rows_cons, B. cbn [headers filter List.length].
    fold (headers (trace s)). rewrite C, A.
    split; [|discriminate]. repeat split; congruence.
Qed.

Lemma appending_clear : preserves (appending found) clear_progress.
Proof.
  prim. destruct (progress_file s); inversion H; subst; [|exact Hs].
  apply (appending_record _ s); auto. exact I.
Qed.

Lemma appending_year_loop (fuel : nat) (years : list Z) :
  preserves (appending found) (year_loop env pause fuel years).
Proof.
  apply year_loop_keeps. intros year s _ _ _ v _ start _.
  apply (page_loop_keeps env pause (appending found) year start); try lia.
  - intros p _.
    exact (calm_keeps_fetch env (appending found) not_an_output appending_record
             (fun n s H => H) (fun _ => I) (Discover year p) (fun _ => I)).
  - intros f p w.
    apply (calm_keeps_prompt env (appending found) not_an_output appending_record);
      intros; exact I.
  - apply appending_save.
  - apply (calm_keeps_sleep (appending found) not_an_output appending_record).
    exact (fun _ => I).
  - apply preserves_movie_loop.
    + apply (calm_keeps_sleep (appending found) not_an_output appending_record).
      exact (fun _ => I).
    + apply (calm_keeps_failed (appending found)). intros n s0 H. exact H.
    + intros x s0 _ _. split; [|apply appending_write].
      prim. inversion H; subst. apply appending_record; auto. exact I.
Qed.

End AppendedOnly.

(** X16. A run only appends to the output file.  The rows found at
    start-up stay as they are, the rows after them are the rows written,
    in the order they were written, and the header is written once, when
    and only when there was no file.  If the run ends before it opens the
    file (placeholder key, failed probe), a missing file is still
    missing. *)
Theorem output_file_only_grows
    (env : Env) (pause : bool) (fuel : nat) (api_key : string)
    (csv : option (list IdCell)) (checkpoint : option FileContent) :
  appended_only csv (snd (run env pause fuel api_key (init csv checkpoint))).
Proof.
  assert (H0 : appended_only csv (init csv checkpoint)).
  { unfold appended_only. destruct csv as [rows|]; cbn; repeat split; congruence. }
  apply (run_leads env pause fuel api_key (appended_only csv) (appending csv)
           (appended_only csv)).
  - exact H0.
  - exact H0.
  - exact (calm_keeps_fetch env (appended_only csv) not_an_output
             (appended_only_record csv) (fun n s H => H) (fun _ => I)
             ApiKeyTest (fun _ => I)).
  - apply appending_open.
  - apply appending_year_loop.
  - apply appending_clear.
  - auto.
  - intros s [H _]. exact H.
Qed.

(* ===================================================================== *)
(** ** Start-up, the prompt and the items of a page *)
(* ===================================================================== *)

(** X17. When the start-up probe never gets a 200 answer whose body has
    one of the two expected keys, [run] returns after the probe, whatever
    the answers were: nothing is written, the output file is not created
    and the checkpoint file is as it was. *)
Theorem failed_probe_writes_nothing
    (env : Env) (pause : bool) (fuel : nat) (api_key : string)
    (csv : option (list IdCell)) (checkpoint : option FileContent) :
  (api_key =? "YOUR_API_KEY_HERE")%string = false ->
  (forall t data, server env t ApiKeyTest = Http 200 (Some data) ->
                  expected_structure data <> Ok true) ->
  exists s',
    run env pause fuel api_key (init csv checkpoint) = (Done KeyTestFailed, s')
    /\ output_file s' = output_file (init csv checkpoint)
    /\ progress_file s' = checkpoint
    /\ written_rows (trace s') = []
    /\ headers (trace s') = 0%nat.
Proof.
  intros Hkey Hbad. unfold run. rewrite Hkey.
  unfold bind at 1. cbn [modify]. unfold bind at 1. cbn [modify].
  match goal with
  | |- context [bind (fetch_with_retry env ApiKeyTest) _ ?s] => set (s1 := s)
  end.
  destruct (fetch_attempts_total env ApiKeyTest attempts_range s1)
    as (data & s' & E & Hd & Hsame & _ & _ & _).
  assert (data = JNull) as ->.
  { destruct Hd as [H | (Hok & _ & t & Ht)]; [exact H|].
    destruct (Hbad t data Ht Hok). }
  fold (fetch_with_retry env ApiKeyTest) in E.
  rewrite (bind_run _ _ _ _ _ E). cbn [truthy negb ret].
  exists s'. split; [reflexivity|].
  destruct Hsame as (_ & _ & _ & Ho & Hp).
  split; [rewrite Ho; reflexivity|]. split; [rewrite Hp; reflexivity|].
  pose proof (calm_keeps_fetch env (appended_only csv) not_an_output
                (appended_only_record csv) (fun n s H => H) (fun _ => I)
                ApiKeyTest (fun _ => I) s1 _ _ E) as Ha.
  assert (H1 : appended_only csv s1).
  { unfold appended_only. destruct csv as [rows|]; cbn; repeat split; congruence. }
  specialize (Ha H1). unfold appended_only in Ha. rewrite Ho in Ha.
  destruct csv as [rows|]; cbn in Ha.
  - destruct Ha as (_ & Hr & Hh & _). split; [congruence | apply Hh; discriminate].
  - destruct Ha as (_ & Hr & Hh). split; assumption.
Qed.

Lemma failed_probe_writes_nothing_witness :
  exists s',
    run maintenance PAUSE_ON_ERROR 10 "key"
        (init None (Some (Document resume_checkpoint)))
    = (Done KeyTestFailed, s')
    /\ output_file s' = output_file (init None (Some (Document resume_checkpoint)))
    /\ progress_file s' = Some (Document resume_checkpoint)
    /\ written_rows (trace s') = []
    /\ headers (trace s') = 0%nat.
Proof.
  refine (failed_probe_writes_nothing maintenance PAUSE_ON_ERROR 10 "key" None
            (Some (Document resume_checkpoint)) eq_refl _).
  intros t data H. discriminate H.
Defined.

Section Prompt.
Variable env : Env.

Lemma read_choice_valid (fuel : nat) :
  forall s c s', read_choice env fuel s = (Done c, s') -> valid_choice c = true.
Proof.
  induction fuel as [|fuel IH]; intros s c s' H; [discriminate|].
  cbn [read_choice] in H. unfold bind at 1 in H. cbn [input] in H.
  destruct (console env (trace s)) as [line|]; [|discriminate].
  destruct (valid_choice line) eqn:Ev.
  - inversion H; subst. exact Ev.
  - eapply IH; eauto.
Qed.

Lemma valid_choice_cases (c : string) :
  valid_choice c = true -> c = "1" \/ c = "2" \/ c = "3" \/ c = "4".
Proof.
  unfold valid_choice. cbn [existsb]. rewrite !orb_true_iff, !String.eqb_eq.
  intros [H | [H | [H | [H | H]]]]; auto. discriminate.
Qed.

(** An entry that is none of the four is asked again. *)
Lemma read_choice_again (fuel : nat) (line : string) (s : Session) :
  console env (trace s) = Entered line ->
  valid_choice line = false ->
  read_choice env (S fuel) s
  = read_choice env fuel (record (EvInput (Entered line)) s).
Proof.
  intros Hc Hv. cbn [read_choice]. unfold bind at 1. cbn [input].
  rewrite Hc, Hv. reflexivity.
Qed.

End Prompt.

(** X18. When the prompt returns, what it returns is one of "1", "2",
    "3" and "4", and the prompt banner is in the trace; any other entry
    is asked again and never reaches the caller. *)
Theorem prompt_returns_one_of_four
    (env : Env) (fuel : nat) (year page : Z) (why : PromptReason)
    (s s' : Session) (choice : string) :
  pause_on_error_prompt env fuel year page why s = (Done choice, s') ->
  (choice = "1" \/ choice = "2" \/ choice = "3" \/ choice = "4")
  /\ extends (EvPrompt year page why :: trace s) s'.
Proof.
  intros H. unfold pause_on_error_prompt in H.
  unfold bind at 1 in H. cbn [modify] in H. split.
  - apply valid_choice_cases. eapply read_choice_valid; eauto.
  - assert (Hp : preserves (extends (EvPrompt year page why :: trace s))
                   (read_choice env fuel)).
    { apply preserves_read_choice. prim. inversion H0; subst.
      apply extends_record. assumption. }
    eapply Hp; [exact H|]. exists []. reflexivity.
Qed.

Lemma prompt_returns_one_of_four_witness :
  exists s',
    pause_on_error_prompt hesitant 5 2021 3 FailedToFetchPage (init None None)
    = (Done "3", s')
    /\ ("3" = "1" \/ "3" = "2" \/ "3" = "3" \/ "3" = "4")
    /\ extends [EvPrompt 2021 3 FailedToFetchPage] s'
    /\ rev (trace s')
       = [EvPrompt 2021 3 FailedToFetchPage; EvInput (Entered "yes");
          EvInput (Entered ""); EvInput (Entered "3")].
Proof.
  eexists. split; [reflexivity|].
  destruct (prompt_returns_one_of_four hesitant 5 2021 3 FailedToFetchPage
              (init None None) _ "3" eq_refl) as [H1 H2].
  split; [exact H1|]. split; [exact H2 | reflexivity].
Defined.

(** X19. A page whose items are all passed over (no identifier, or an
    identifier already in the index) costs nothing: no detail request, no
    sleep, no row, the session is left as it was. *)
Theorem known_items_cost_nothing (env : Env) (results : list json) (s : Session) :
  (forall movie, In movie results -> passed_over (extracted_ids s) movie) ->
  movie_loop env results s = (Done tt, s).
Proof.
  induction results as [|movie rest IH]; intros Hall; [reflexivity|].
  destruct (Hall movie (or_introl eq_refl)) as (kvs & -> & Hid).
  assert (Hrest : movie_loop env rest s = (Done tt, s)).
  { apply IH. intros m Hm. apply Hall. right. exact Hm. }
  cbn [movie_loop dict_get]. rewrite bind_lift_ok.
  destruct Hid as [Hfalsy | (v & Hv & Hh & Hm)].
  - rewrite Hfalsy. cbn [negb]. exact Hrest.
  - rewrite Hv. destruct (truthy v); cbn [negb]; [|exact Hrest].
    rewrite bind_gets. unfold set_in. rewrite Hh, bind_lift_ok, Hm. exact Hrest.
Qed.

Lemma known_items_cost_nothing_witness :
  movie_loop (catalog 1) seen_page seen_session = (Done tt, seen_session).
Proof.
  apply (known_items_cost_nothing (catalog 1) seen_page seen_session).
  intros movie [<- | [<- | [<- | [<- | []]]]]; eexists; (split; [reflexivity|]).
  - right. exists (JNum 202201). repeat split.
  - left. reflexivity.
  - left. reflexivity.
  - right. exists (JNum 202204). repeat split.
Defined.

(* ===================================================================== *)
(** ** Stopping on the operator's word *)
(* ===================================================================== *)

Section Ends.

Lemma ends_bind {A B} (m : M A) (k : A -> M B) (Q : B -> Session -> Prop) :
  (forall a, ends_with (k a) Q) -> ends_with (bind m k) Q.
Proof.
  intros Hk s b s' H.
  apply bind_inv in H as [(a & s1 & E & H) | [(e & _ & He) | [_ He]]];
    try discriminate.
  eapply Hk; eauto.
Qed.

Lemma ends_raise {A} (e : exc) (Q : A -> Session -> Prop) : ends_with (raise e) Q.
Proof. intros s a s' H. discriminate. Qed.

Lemma ends_out_of_fuel {A} (Q : A -> Session -> Prop) : ends_with out_of_fuel Q.
Proof. intros s a s' H. discriminate. Qed.

Lemma ends_ret {A} (a : A) (Q : A -> Session -> Prop) :
  (forall s, Q a s) -> ends_with (ret a) Q.
Proof. intros HQ s b s' H. inversion H; subst. apply HQ. Qed.

End Ends.

Section Stop.
Variable env : Env.
Variable pause : bool.

Lemma save_then_return (year page : Z) :
  ends_with (save_progress env year page ;; ret Returned) (stopped_in env year).
Proof.
  intros s exit s' H _. unfold bind, save_progress, ret in H.
  exists (progress_document env year page s), (trace s).
  destruct (disk env (trace s)) eqn:Ed; inversion H; subst;
    (split; [reflexivity|]); (split; [reflexivity|]);
    intros Hw; try discriminate; reflexivity.
Qed.

Ltac ends_step :=
  match goal with
  | |- ends_with (bind (save_progress _ _ _) (fun _ => ret Returned)) _ =>
      apply save_then_return
  | |- ends_with (bind _ _) _ => apply ends_bind; intros ?
  | |- ends_with (ret YearOver) _ =>
      apply ends_ret; intros ? ?; discriminate
  | |- ends_with (raise _) _ => apply ends_raise
  | |- ends_with out_of_fuel _ => apply ends_out_of_fuel
  | |- ends_with (if ?b then _ else _) _ => destruct b
  | |- ends_with _ _ => solve [eauto]
  end.

Lemma page_loop_stop (fuel : nat) (year : Z) :
  forall page total empties,
    ends_with (page_loop env pause fuel year page total empties)
              (stopped_in env year).
Proof.
  induction fuel as [|fuel IH]; intros page total empties;
    cbn [page_loop]; cbv zeta; repeat ends_step.
Qed.

Lemma year_loop_stop (fuel : nat) (years : list Z) :
  ends_with (year_loop env pause fuel years) (stopped_among env years).
Proof.
  induction years as [|year later IH]; cbn [year_loop].
  - apply ends_ret. intros s H. discriminate.
  - assert (IH' : ends_with (year_loop env pause fuel later)
                            (stopped_among env (year :: later))).
    { intros s exit s' H Hr. destruct (IH s exit s' H Hr) as (y & Hy & Hj).
      exists y. split; [right; exact Hy | exact Hj]. }
    apply ends_bind. intros skip. destruct skip; [exact IH'|].
    apply ends_bind. intros starting_page. apply ends_bind. intros _.
    destruct (as_int starting_page) as [page|]; [|apply ends_raise].
    intros s exit s' H.
    apply bind_inv in H as [(x & s1 & E & H) | [(e & _ & He) | [_ He]]];
      try discriminate.
    destruct x.
    + eapply IH'; eauto.
    + inversion H; subst. intros _. exists year. split; [left; reflexivity|].
      exact (page_loop_stop fuel year page 1 0 s Returned s' E eq_refl).
Qed.

End Stop.

(** X20. When [run] ends because the operator chose to stop, the last
    thing it did was save the checkpoint, for one of the years of
    [YEARS]; if that write succeeded the checkpoint file holds exactly
    the document saved.  Nothing follows the save: no request, no row, no
    removal of the checkpoint. *)
Theorem operator_stop_ends_on_a_save
    (env : Env) (pause : bool) (fuel : nat) (api_key : string)
    (s0 s' : Session) :
  run env pause fuel api_key s0 = (Done StoppedByOperator, s') ->
  exists year, In year YEARS /\ just_saved env year s'.
Proof.
  unfold run. destruct (api_key =? "YOUR_API_KEY_HERE")%string; [discriminate|].
  intros H.
  apply bind_inv in H as [(a1 & s1 & _ & H) | [(e & _ & He) | [_ He]]];
    try discriminate.
  apply bind_inv in H as [(a2 & s2 & _ & H) | [(e & _ & He) | [_ He]]];
    try discriminate.
  apply bind_inv in H as [(t & s3 & _ & H) | [(e & _ & He) | [_ He]]];
    try discriminate.
  destruct (negb (truthy t)); [discriminate|].
  apply bind_inv in H as [(a4 & s4 & _ & H) | [(e & _ & He) | [_ He]]];
    try discriminate.
  apply bind_inv in H as [(exit & s5 & E & H) | [(e & _ & He) | [_ He]]];
    try discriminate.
  destruct exit.
  - apply bind_inv in H as [(a6 & s6 & _ & H) | [(e & _ & He) | [_ He]]];
      discriminate.
  - inversion H; subst.
    exact (year_loop_stop env pause fuel YEARS _ _ _ E eq_refl).
Qed.

Lemma operator_stop_ends_on_a_save_witness :
  exists s',
    main (attended (refusing_server 500) "3") 20 "key" None None
    = (Done StoppedByOperator, s')
    /\ exists year, In year YEARS /\ just_saved (attended (refusing_server 500) "3")
                                               year s'.
Proof.
  eexists. split; [reflexivity|].
  exact (operator_stop_ends_on_a_save (attended (refusing_server 500) "3")
           PAUSE_ON_ERROR 20 "key" (init None None) _ eq_refl).
Defined.

(* ===================================================================== *)
(** ** What start-up reads *)
(* ===================================================================== *)

(** X21. What the checkpoint file holds decides the progress an extractor
    starts with: a document that is a [dict] is taken as it is, and
    anything else (no file, a file that cannot be read or parsed, a
    document that is no [dict]) gives the empty checkpoint.  Either way
    the progress is a [dict], so of the two readers of the checkpoint
    [should_skip_year] can fail only with the [TypeError] of comparing
    the year, and [get_starting_page] never fails. *)
Theorem loaded_progress_is_a_dict (file : option FileContent) :
  (forall kvs, file = Some (Document (JObj kvs)) -> load_progress file = JObj kvs)
  /\ ((forall kvs, file <> Some (Document (JObj kvs))) ->
      load_progress file = empty_progress)
  /\ (exists kvs, load_progress file = JObj kvs)
  /\ (forall csv year,
        (exists skip, fst (should_skip_year year (init csv file)) = Done skip)
        \/ fst (should_skip_year year (init csv file)) = Uncaught TypeError)
  /\ (forall csv year, exists v,
        fst (get_starting_page year (init csv file)) = Done v).
Proof.
  assert (Hdoc : forall kvs, file = Some (Document (JObj kvs)) ->
                             load_progress file = JObj kvs).
  { intros kvs ->. reflexivity. }
  assert (Hnone : (forall kvs, file <> Some (Document (JObj kvs))) ->
                  load_progress file = empty_progress).
  { intros Hn. destruct file as [[doc| |]|]; try reflexivity.
    destruct doc; try reflexivity. exfalso. eapply Hn. reflexivity. }
  assert (H : exists kvs, load_progress file = JObj kvs).
  { destruct file as [[doc| |]|]; try (eexists; reflexivity).
    destruct doc; eexists; reflexivity. }
  split; [exact Hdoc|]. split; [exact Hnone|]. split; [exact H|].
  destruct H as (kvs & Hl). split.
  - intros csv year. unfold should_skip_year. rewrite bind_gets.
    cbn [init progress]. rewrite Hl. cbn [dict_get]. rewrite bind_lift_ok.
    destruct (lookup "last_year" kvs) as [v|]; [|left; eexists; reflexivity].
    destruct v; unfold int_lt; cbn;
      first [left; eexists; reflexivity | right; reflexivity].
  - intros csv year. unfold get_starting_page. rewrite bind_gets.
    cbn [init progress]. rewrite Hl. cbn [dict_get]. rewrite bind_lift_ok.
    destruct (eq_int _ year); eexists; reflexivity.
Qed.

Section Scan.

Lemma scalar_eq_sym (a b : json) : scalar_eq a b = scalar_eq b a.
Proof.
  destruct a as [|[|]| | | |], b as [|[|]| | | |]; unfold scalar_eq, as_int;
    cbv beta iota; try reflexivity; try apply Z.eqb_sym; apply String.eqb_sym.
Qed.

Lemma distinct_snoc (s : pyset) (v : json) :
  distinct s -> mem v s = false -> distinct (s ++ [v]).
Proof.
  induction s as [|x s IH]; cbn [app distinct]; intros Hd Hv.
  - split; [reflexivity | exact I].
  - destruct Hd as [Hx Hd]. cbn [mem existsb] in Hv.
    apply orb_false_iff in Hv as [Hvx Hvs].
    split; [|apply IH; assumption].
    rewrite mem_app, Hx. cbn. rewrite scalar_eq_sym, Hvx. reflexivity.
Qed.

Lemma distinct_set_add (s : pyset) (v : json) : distinct s -> distinct (set_add v s).
Proof.
  intros Hd. unfold set_add. destruct (mem v s) eqn:E; [exact Hd|].
  apply distinct_snoc; assumption.
Qed.

Lemma set_add_in (s : pyset) (v x : json) :
  In x (set_add v s) -> In x s \/ x = v.
Proof.
  unfold set_add. destruct (mem v s); [auto|].
  intros H. apply in_app_or in H as [H | [H | []]]; auto.
Qed.

Lemma set_of_list_spec (l : list json) :
  forall acc,
    distinct acc ->
    distinct (fold_left (fun s x => set_add x s) l acc)
    /\ (forall x, In x (fold_left (fun s x => set_add x s) l acc) ->
                  In x acc \/ In x l)
    /\ (List.length (fold_left (fun s x => set_add x s) l acc)
        <= List.length acc + List.length l)%nat.
Proof.
  induction l as [|v l IH]; intros acc Hd; cbn [fold_left].
  - split; [exact Hd|]. split; [auto | lia].
  - destruct (IH (set_add v acc) (distinct_set_add acc v Hd)) as (A & B & C).
    split; [exact A|]. split.
    + intros x Hx. destruct (B x Hx) as [H | H]; [|right; right; exact H].
      destruct (set_add_in _ _ _ H) as [H' | ->]; [left; exact H'|].
      right. left. reflexivity.
    + assert (List.length (set_add v acc) <= S (List.length acc))%nat.
      { unfold set_add. destruct (mem v acc); [lia|].
        rewrite length_app. cbn. lia. }
      cbn [List.length]. lia.
Qed.

Lemma scan_ids_exact (rows : list IdCell) :
  forall ids,
    scan_ids rows = Ok ids ->
    (forall x, In x ids -> exists z, x = JNum z /\ In (IdInt z) rows)
    /\ (List.length ids <= List.length rows)%nat.
Proof.
  induction rows as [|c rows IH]; intros ids H; cbn [scan_ids] in H.
  - injection H as <-. split; [intros x [] | cbn; lia].
  - destruct c as [|z0|]; [| |discriminate].
    + destruct (IH ids H) as (A & B). split.
      * intros x Hx. destruct (A x Hx) as (z & -> & Hz).
        exists z. split; [reflexivity | right; exact Hz].
      * cbn [List.length]. lia.
    + destruct (scan_ids rows) as [ids'|]; [|discriminate]. cbn in H.
      injection H as <-. destruct (IH ids' eq_refl) as (A & B). split.
      * intros x [<- | Hx].
        -- exists z0. split; [reflexivity | left; reflexivity].
        -- destruct (A x Hx) as (z & -> & Hz).
           exists z. split; [reflexivity | right; exact Hz].
      * cbn [List.length]. lia.
Qed.

Lemma mem_num_in (z : Z) (s : pyset) :
  (forall x, In x s -> exists w, x = JNum w) ->
  mem (JNum z) s = true -> In (JNum z) s.
Proof.
  intros Hnum H. unfold mem in H. apply existsb_exists in H as (x & Hx & E).
  destruct (Hnum x Hx) as (w & ->). unfold scalar_eq, as_int in E.
  apply Z.eqb_eq in E. subst. exact Hx.
Qed.

End Scan.

(** X22. When every [id] cell of the CSV parses, the index the start-up
    scan builds holds exactly the identifiers of the rows that have one:
    each once, however often the rows repeat it, and nothing else; rows
    with an empty cell count for nothing. *)
Theorem scan_builds_the_set_of_row_ids (rows : list IdCell) :
  ~ In IdJunk rows ->
  let ids := load_existing_movie_ids (Some {| prior_rows := rows; appended := [] |}) in
  (forall z, mem (JNum z) ids = true <-> In (IdInt z) rows)
  /\ (forall x, In x ids -> exists z, x = JNum z /\ In (IdInt z) rows)
  /\ distinct ids
  /\ (List.length ids <= List.length rows)%nat.
Proof.
  intros Hj ids.
  destruct (scan_ids_all rows Hj) as (found & Hscan & Hall).
  destruct (scan_ids_exact rows found Hscan) as (Hex & Hlen).
  destruct (set_of_list_spec found [] I) as (Hd & Hin & Hl).
  assert (Eids : ids = fold_left (fun s x => set_add x s) found []).
  { subst ids. unfold load_existing_movie_ids. cbn [prior_rows].
    rewrite Hscan. reflexivity. }
  assert (Hmembers : forall x, In x ids -> exists z, x = JNum z /\ In (IdInt z) rows).
  { intros x Hx. rewrite Eids in Hx. destruct (Hin x Hx) as [[] | H]. auto. }
  split; [|split; [exact Hmembers | split]].
  - intros z. split.
    + intros Hm. apply mem_num_in in Hm.
      * destruct (Hmembers _ Hm) as (w & E & Hw). injection E as ->. exact Hw.
      * intros x Hx. destruct (Hmembers x Hx) as (w & -> & _). eauto.
    + intros Hz. rewrite Eids. apply mem_fold_add. right.
      exists (JNum z). split; [auto | apply scalar_eq_num].
  - rewrite Eids. exact Hd.
  - rewrite Eids. cbn in Hl. lia.
Qed.

Lemma scan_builds_the_set_of_row_ids_witness :
  let ids := load_existing_movie_ids
               (Some {| prior_rows := [IdInt 7; IdBlank; IdInt 3; IdInt 7];
                        appended := [] |}) in
  ids = [JNum 7; JNum 3]
  /\ (forall z, mem (JNum z) ids = true <-> In (IdInt z) [IdInt 7; IdBlank; IdInt 3; IdInt 7])
  /\ (forall x, In x ids ->
        exists z, x = JNum z /\ In (IdInt z) [IdInt 7; IdBlank; IdInt 3; IdInt 7])
  /\ distinct ids
  /\ (List.length ids <= 4)%nat.
Proof.
  split; [reflexivity|].
  refine (scan_builds_the_set_of_row_ids [IdInt 7; IdBlank; IdInt 3; IdInt 7] _).
  intros [H | [H | [H | [H | []]]]]; discriminate.
Defined.
